(** * ForensicLens3D: the upload / analyze / display workflow of [App]

    A shallow embedding of the [App] component (the React state it owns and
    its event handlers) and of the declarations of [types.ts], followed by
    the properties of the workflow state machine.

    The handlers are [async] functions: they run synchronously up to an
    [await], are suspended there, and are resumed later by the event loop.
    They are embedded as terms of a small free monad [Prog] whose
    constructors are the effects the handlers perform (state setters,
    [URL.createObjectURL], [console.error], [alert], [setTimeout], and the
    three [await] points).  Two interpretations are given:
    - [drive], which runs one handler to completion, the collaborators
      answering as an environment says and the rest of the application
      interfering at every [await] as the environment says;
    - [exec], an event loop with a clock and a list of pending
      continuations, on which the reachable states are defined. *)

From Stdlib Require Import List String NArith ZArith Lia Bool DecimalString.
Import ListNotations.
Local Open Scope string_scope.
Local Open Scope list_scope.

(* ------------------------------------------------------------------ *)
(** ** types.ts *)

Module Types.

(** JavaScript [number]; no operation of [App] reads a numeric field. *)
Definition number := Z.

Record Coordinates := mkCoordinates {
  x : number;
  y : number;
  z : number
}.

Inductive EvidenceType :=
| biological | weapon | trace | document | person | other.

Record EvidenceItem := mkEvidenceItem {
  id : string;
  name : string;
  type : EvidenceType;
  description : string;
  position : Coordinates;
  significance : number
}.

(** Its [description] field is [tl_description] here: [EvidenceItem] has
    taken the name. *)
Record TimelineEvent := mkTimelineEvent {
  timeOffset : string;
  tl_description : string;
  confidence : number
}.

(** An element of [hypotheses] (the interface gives it no name). *)
Record HypothesisItem := mkHypothesisItem {
  theory : string;
  probability : number
}.

(** An element of [typeDistribution] and of [confidenceMetrics]. *)
Record Metric := mkMetric {
  label : string;
  value : number
}.

Record Stats := mkStats {
  typeDistribution : list Metric;
  confidenceMetrics : list Metric
}.

Record CrimeSceneAnalysis := mkCrimeSceneAnalysis {
  summary : string;
  locationDetails : string;
  evidence : list EvidenceItem;
  timeline : list TimelineEvent;
  hypotheses : list HypothesisItem;
  stats : Stats;
  imageUrls : option (list string)
}.

Inductive AnalysisStatus :=
| IDLE | UPLOADING | ANALYZING | COMPLETE | ERROR.

(** Its [name] field is [up_name] here. *)
Record UserProfile := mkUserProfile {
  up_name : string;
  email : string;
  badgeId : string
}.

End Types.
Import Types.

Definition AnalysisStatus_eqb (a b : AnalysisStatus) : bool :=
  match a, b with
  | IDLE, IDLE | UPLOADING, UPLOADING | ANALYZING, ANALYZING
  | COMPLETE, COMPLETE | ERROR, ERROR => true
  | _, _ => false
  end.

(** [{ ...data, imageUrls: urls }] *)
Definition with_imageUrls (data : CrimeSceneAnalysis) (urls : list string)
  : CrimeSceneAnalysis :=
  {| summary := summary data;
     locationDetails := locationDetails data;
     evidence := evidence data;
     timeline := timeline data;
     hypotheses := hypotheses data;
     stats := stats data;
     imageUrls := Some urls |}.

(* ------------------------------------------------------------------ *)
(** ** Values of the browser *)

(** A [File] picked by the user. *)
Record File := mkFile {
  file_name : string;
  file_size : N
}.

(** A thrown value. *)
Inductive JsError := Error (message : string).

(** How a promise settles. *)
Inductive Outcome (A : Type) :=
| Resolved (a : A)
| Rejected (e : JsError).
Arguments Resolved {A} a.
Arguments Rejected {A} e.

(* ------------------------------------------------------------------ *)
(** ** The state owned by [App] (its four [useState] cells) *)

Record AppState := mkAppState {
  user : option UserProfile;
  status : AnalysisStatus;
  analysisData : option CrimeSceneAnalysis;
  uploadedImages : list string
}.

(** The values the cells are created with. *)
Definition initialState : AppState :=
  {| user := None; status := IDLE; analysisData := None; uploadedImages := [] |}.

(* ------------------------------------------------------------------ *)
(** ** Handler programs *)

(** One constructor per effect of the handlers; [k] is the rest of the
    handler.  The three [Await*] constructors are the suspension points. *)
Inductive Prog : Type -> Type :=
| Ret {A} (a : A) : Prog A
| Throw {A} (e : JsError) : Prog A
| SetUser {A} (u : option UserProfile) (k : Prog A) : Prog A
| SetStatus {A} (st : AnalysisStatus) (k : Prog A) : Prog A
| SetAnalysisData {A} (d : option CrimeSceneAnalysis) (k : Prog A) : Prog A
| SetUploadedImages {A} (f : list string -> list string) (k : Prog A) : Prog A
| CreateObjectURL {A} (file : File) (k : string -> Prog A) : Prog A
| ConsoleError {A} (e : JsError) (k : Prog A) : Prog A
| Alert {A} (msg : string) (k : Prog A) : Prog A
| SetTimeout {A} (cb : Prog unit) (ms : N) (k : Prog A) : Prog A
| AwaitTimeout {A} (ms : N) (k : Prog A) : Prog A
| AwaitAnalyze {A} (files : list File)
    (k : Outcome CrimeSceneAnalysis -> Prog A) : Prog A
| AwaitSend {A} (data : CrimeSceneAnalysis) (u : UserProfile) (to : string)
    (k : Outcome bool -> Prog A) : Prog A.

Fixpoint bind {A B} (p : Prog A) : (A -> Prog B) -> Prog B :=
  match p in Prog A return (A -> Prog B) -> Prog B with
  | Ret a => fun f => f a
  | Throw e => fun _ => Throw e
  | SetUser u k => fun f => SetUser u (bind k f)
  | SetStatus st k => fun f => SetStatus st (bind k f)
  | SetAnalysisData d k => fun f => SetAnalysisData d (bind k f)
  | SetUploadedImages g k => fun f => SetUploadedImages g (bind k f)
  | CreateObjectURL file k => fun f => CreateObjectURL file (fun u => bind (k u) f)
  | ConsoleError e k => fun f => ConsoleError e (bind k f)
  | Alert msg k => fun f => Alert msg (bind k f)
  | SetTimeout cb ms k => fun f => SetTimeout cb ms (bind k f)
  | AwaitTimeout ms k => fun f => AwaitTimeout ms (bind k f)
  | AwaitAnalyze files k => fun f => AwaitAnalyze files (fun o => bind (k o) f)
  | AwaitSend d u to k => fun f => AwaitSend d u to (fun o => bind (k o) f)
  end.

(** [try { body } catch (error) { handler error }].  A callback handed to
    [setTimeout] inside [body] runs later, outside the [try]. *)
Fixpoint try_catch {A} (body : Prog A) : (JsError -> Prog A) -> Prog A :=
  match body in Prog A return (JsError -> Prog A) -> Prog A with
  | Ret a => fun _ => Ret a
  | Throw e => fun h => h e
  | SetUser u k => fun h => SetUser u (try_catch k h)
  | SetStatus st k => fun h => SetStatus st (try_catch k h)
  | SetAnalysisData d k => fun h => SetAnalysisData d (try_catch k h)
  | SetUploadedImages g k => fun h => SetUploadedImages g (try_catch k h)
  | CreateObjectURL file k => fun h => CreateObjectURL file (fun u => try_catch (k u) h)
  | ConsoleError e k => fun h => ConsoleError e (try_catch k h)
  | Alert msg k => fun h => Alert msg (try_catch k h)
  | SetTimeout cb ms k => fun h => SetTimeout cb ms (try_catch k h)
  | AwaitTimeout ms k => fun h => AwaitTimeout ms (try_catch k h)
  | AwaitAnalyze files k => fun h => AwaitAnalyze files (fun o => try_catch (k o) h)
  | AwaitSend d u to k => fun h => AwaitSend d u to (fun o => try_catch (k o) h)
  end.

Declare Scope prog_scope.
Delimit Scope prog_scope with prog.
Notation "x <- c1 ;; c2" := (bind c1 (fun x => c2))
  (at level 61, c1 at next level, right associativity) : prog_scope.
Notation "c1 ;; c2" := (bind c1 (fun _ => c2))
  (at level 61, right associativity) : prog_scope.
Local Open Scope prog_scope.

(** The calls of the handlers, as programs. *)
Definition setUser (u : option UserProfile) : Prog unit := SetUser u (Ret tt).
Definition setStatus (st : AnalysisStatus) : Prog unit := SetStatus st (Ret tt).
Definition setAnalysisData (d : option CrimeSceneAnalysis) : Prog unit :=
  SetAnalysisData d (Ret tt).
Definition setUploadedImages (f : list string -> list string) : Prog unit :=
  SetUploadedImages f (Ret tt).
Definition createObjectURL (file : File) : Prog string :=
  CreateObjectURL file (fun u => Ret u).
Definition console_error (e : JsError) : Prog unit := ConsoleError e (Ret tt).
Definition alert (msg : string) : Prog unit := Alert msg (Ret tt).
Definition setTimeout (cb : Prog unit) (ms : N) : Prog unit :=
  SetTimeout cb ms (Ret tt).

(** [await new Promise(resolve => setTimeout(resolve, ms))] *)
Definition sleep (ms : N) : Prog unit := AwaitTimeout ms (Ret tt).

(** Awaiting a promise gives its value, or throws what it was rejected
    with. *)
Definition await {A} (o : Outcome A) : Prog A :=
  match o with
  | Resolved a => Ret a
  | Rejected e => Throw e
  end.

(** [await analyzeCrimeSceneImages(files)] (services/geminiService) *)
Definition analyzeCrimeSceneImages (files : list File) : Prog CrimeSceneAnalysis :=
  AwaitAnalyze files await.

(** [await generateAndSendReport(data, user, to)] (services/reportService) *)
Definition generateAndSendReport (data : CrimeSceneAnalysis) (u : UserProfile)
  (to : string) : Prog bool :=
  AwaitSend data u to await.

(** [files.map(f)] for an effectful [f]. *)
Fixpoint mapM {A B} (f : A -> Prog B) (l : list A) : Prog (list B) :=
  match l with
  | [] => Ret []
  | a :: l' => b <- f a ;; bs <- mapM f l' ;; Ret (b :: bs)
  end.

(* ------------------------------------------------------------------ *)
(** ** The handlers of [App] *)

Definition handleLogin (userInfo : UserProfile) : Prog unit :=
  setUser (Some userInfo).

Definition handleLogout : Prog unit :=
  setUser None ;;
  setAnalysisData None ;;
  setUploadedImages (fun _ => []) ;;
  setStatus IDLE.

Definition handleUpload (files : list File) : Prog unit :=
  setStatus UPLOADING ;;
  newImageUrls <- mapM createObjectURL files ;;
  setUploadedImages (fun prev => prev ++ newImageUrls) ;;
  sleep 1000 ;;
  setStatus ANALYZING ;;
  try_catch
    (data <- analyzeCrimeSceneImages files ;;
     let dataWithImages := with_imageUrls data newImageUrls in
     setAnalysisData (Some dataWithImages) ;;
     setStatus COMPLETE)
    (fun error =>
       console_error error ;;
       setStatus ERROR ;;
       setTimeout (setStatus IDLE) 3000).

Definition success_message (targetEmail : string) : string :=
  ("Report encrypted and transmitted to secure SMTP gateway: " ++ targetEmail)%string.
Definition failure_message : string :=
  "Transmission failed. Check console for details.".

(** [email || user.email]: an absent or empty [email] is falsy. *)
Definition or_else (email : option string) (dflt : string) : string :=
  match email with
  | None => dflt
  | Some EmptyString => dflt
  | Some e => e
  end.

(** [handleDownloadReport] reads [analysisData] and [user] from the render
    it was created in; [s] is that render's state. *)
Definition handleDownloadReport (s : AppState) (mail : option string) : Prog unit :=
  match analysisData s, user s with
  | Some data, Some u =>
      let targetEmail := or_else mail (email u) in
      success <- generateAndSendReport data u targetEmail ;;
      if success : bool
      then alert (success_message targetEmail)
      else alert failure_message
  | _, _ => Ret tt
  end.

(** The [onReset] callback handed to [Dashboard]. *)
Definition onReset : Prog unit :=
  setAnalysisData None ;;
  setUploadedImages (fun _ => []) ;;
  setStatus IDLE.

(** What [App] renders, and so which handlers the user can reach. *)
Inductive View :=
| LoginView
| UploaderView (st : AnalysisStatus)
| DashboardView (data : CrimeSceneAnalysis) (images : list string)
| EmptyView.

Definition render (s : AppState) : View :=
  match user s with
  | None => LoginView
  | Some _ =>
      match status s with
      | IDLE | UPLOADING | ANALYZING | ERROR => UploaderView (status s)
      | COMPLETE =>
          match analysisData s with
          | Some data => DashboardView data (uploadedImages s)
          | None => EmptyView
          end
      end
  end.

(* ------------------------------------------------------------------ *)
(** ** The browser around [App] *)

(** JavaScript runs each handler, and each resumption of one, to its next
    [await] without interruption, and React applies the updates queued by
    the setters called in such a step together.  So a step is atomic here:
    the states of the model are the states between steps.  A functional
    update ([setUploadedImages(prev => ...)]) is applied to the value the
    cell has in that step. *)

(** A continuation the event loop will resume. *)
Inductive Pending :=
| PTimer (due : N) (k : Prog unit)
| PAnalysis (files : list File) (k : Outcome CrimeSceneAnalysis -> Prog unit)
| PSend (data : CrimeSceneAnalysis) (u : UserProfile) (to : string)
    (k : Outcome bool -> Prog unit).

Record World := mkWorld {
  app : AppState;
  blobs : nat;            (* object URLs created so far *)
  now : N;                (* the clock, in milliseconds *)
  pending : list Pending
}.

Definition initialWorld : World :=
  {| app := initialState; blobs := 0; now := 0; pending := [] |}.

(** The [n]-th object URL. *)
Definition blob_url (n : nat) : string :=
  ("blob:" ++ NilEmpty.string_of_uint (Nat.to_uint n))%string.

Definition with_app (f : AppState -> AppState) (w : World) : World :=
  {| app := f (app w); blobs := blobs w; now := now w; pending := pending w |}.

Definition set_user (u : option UserProfile) : World -> World :=
  with_app (fun s => {| user := u; status := status s;
                        analysisData := analysisData s;
                        uploadedImages := uploadedImages s |}).
Definition set_status (st : AnalysisStatus) : World -> World :=
  with_app (fun s => {| user := user s; status := st;
                        analysisData := analysisData s;
                        uploadedImages := uploadedImages s |}).
Definition set_analysisData (d : option CrimeSceneAnalysis) : World -> World :=
  with_app (fun s => {| user := user s; status := status s;
                        analysisData := d;
                        uploadedImages := uploadedImages s |}).
Definition set_uploadedImages (f : list string -> list string) : World -> World :=
  with_app (fun s => {| user := user s; status := status s;
                        analysisData := analysisData s;
                        uploadedImages := f (uploadedImages s) |}).
Definition minted (w : World) : World :=
  {| app := app w; blobs := S (blobs w); now := now w; pending := pending w |}.
Definition add_pending (p : Pending) (w : World) : World :=
  {| app := app w; blobs := blobs w; now := now w; pending := pending w ++ [p] |}.
Definition set_pending (l : list Pending) (w : World) : World :=
  {| app := app w; blobs := blobs w; now := now w; pending := l |}.
Definition elapse (dt : N) (w : World) : World :=
  {| app := app w; blobs := blobs w; now := (now w + dt)%N; pending := pending w |}.

(** What a handler does, as seen from outside. *)
Inductive Effect :=
| ESetUser (u : option UserProfile)
| ESetStatus (st : AnalysisStatus)
| ESetAnalysisData (d : option CrimeSceneAnalysis)
| ESetUploadedImages (images : list string)      (* the new value *)
| ECreateObjectURL (file : File) (url : string)
| EConsoleError (e : JsError)
| EAlert (msg : string)
| ESetTimeout (ms : N)
| EAwaitTimeout (ms : N)
| ECallAnalyze (files : list File)
| ECallSend (data : CrimeSceneAnalysis) (u : UserProfile) (to : string).

(* ------------------------------------------------------------------ *)
(** ** Running one handler to completion *)

(** Where a handler is suspended. *)
Inductive Suspension :=
| InTimeout (ms : N)
| InAnalyze (files : list File)
| InSend (data : CrimeSceneAnalysis) (u : UserProfile) (to : string).

(** The collaborators and the rest of the application: how the analysis
    and the dispatch service settle, and what happens to the world while
    the handler is suspended. *)
Record Env := mkEnv {
  analysis : list File -> Outcome CrimeSceneAnalysis;
  dispatch : CrimeSceneAnalysis -> UserProfile -> string -> Outcome bool;
  meanwhile : Suspension -> World -> World
}.

(** How the promise of an [async] handler settles. *)
Inductive Completion (A : Type) :=
| Returned (a : A)
| Threw (e : JsError).
Arguments Returned {A} a.
Arguments Threw {A} e.

Record Run (A : Type) := mkRun {
  final : World;
  completion : Completion A;
  effects : list Effect
}.
Arguments mkRun {A}.
Arguments final {A}.
Arguments completion {A}.
Arguments effects {A}.

Definition after {A} (e : Effect) (r : Run A) : Run A :=
  mkRun (final r) (completion r) (e :: effects r).

Fixpoint drive {A} (env : Env) (p : Prog A) (w : World) : Run A :=
  match p with
  | Ret a => mkRun w (Returned a) []
  | Throw e => mkRun w (Threw e) []
  | SetUser u k => after (ESetUser u) (drive env k (set_user u w))
  | SetStatus st k => after (ESetStatus st) (drive env k (set_status st w))
  | SetAnalysisData d k =>
      after (ESetAnalysisData d) (drive env k (set_analysisData d w))
  | SetUploadedImages f k =>
      after (ESetUploadedImages (f (uploadedImages (app w))))
            (drive env k (set_uploadedImages f w))
  | CreateObjectURL file k =>
      let url := blob_url (blobs w) in
      after (ECreateObjectURL file url) (drive env (k url) (minted w))
  | ConsoleError e k => after (EConsoleError e) (drive env k w)
  | Alert msg k => after (EAlert msg) (drive env k w)
  | SetTimeout cb ms k =>
      after (ESetTimeout ms)
            (drive env k (add_pending (PTimer (now w + ms) cb) w))
  | AwaitTimeout ms k =>
      after (EAwaitTimeout ms) (drive env k (meanwhile env (InTimeout ms) w))
  | AwaitAnalyze files k =>
      after (ECallAnalyze files)
            (drive env (k (analysis env files)) (meanwhile env (InAnalyze files) w))
  | AwaitSend d u to k =>
      after (ECallSend d u to)
            (drive env (k (dispatch env d u to)) (meanwhile env (InSend d u to) w))
  end.

(** The statuses a run wrote, in order. *)
Definition status_writes (tr : list Effect) : list AnalysisStatus :=
  flat_map (fun e => match e with ESetStatus st => [st] | _ => [] end) tr.

(** The results a run stored, in order. *)
Definition data_writes (tr : list Effect) : list (option CrimeSceneAnalysis) :=
  flat_map (fun e => match e with ESetAnalysisData d => [d] | _ => [] end) tr.

Definition is_call (e : Effect) : bool :=
  match e with ECallSend _ _ _ | ECallAnalyze _ => true | _ => false end.
Definition is_alert (e : Effect) : bool :=
  match e with EAlert _ => true | _ => false end.

(** Nothing else runs while the handler is suspended (a timeout lets its
    delay pass), and the collaborators answer as given. *)
Definition alone (a : list File -> Outcome CrimeSceneAnalysis)
  (d : CrimeSceneAnalysis -> UserProfile -> string -> Outcome bool) : Env :=
  {| analysis := a;
     dispatch := d;
     meanwhile := fun s w =>
       match s with
       | InTimeout ms => elapse ms w
       | _ => w
       end |}.

(* ------------------------------------------------------------------ *)
(** ** The event loop *)

(** A handler run up to its next [await]. *)
Inductive Paused (A : Type) :=
| Finished (a : A)
| Uncaught (e : JsError)
| AtTimeout (ms : N) (k : Prog A)
| AtAnalyze (files : list File) (k : Outcome CrimeSceneAnalysis -> Prog A)
| AtSend (data : CrimeSceneAnalysis) (u : UserProfile) (to : string)
    (k : Outcome bool -> Prog A).
Arguments Finished {A} a.
Arguments Uncaught {A} e.
Arguments AtTimeout {A} ms k.
Arguments AtAnalyze {A} files k.
Arguments AtSend {A} data u to k.

Fixpoint run_sync {A} (p : Prog A) (w : World) : World * Paused A :=
  match p with
  | Ret a => (w, Finished a)
  | Throw e => (w, Uncaught e)
  | SetUser u k => run_sync k (set_user u w)
  | SetStatus st k => run_sync k (set_status st w)
  | SetAnalysisData d k => run_sync k (set_analysisData d w)
  | SetUploadedImages f k => run_sync k (set_uploadedImages f w)
  | CreateObjectURL file k => run_sync (k (blob_url (blobs w))) (minted w)
  | ConsoleError e k => run_sync k w
  | Alert msg k => run_sync k w
  | SetTimeout cb ms k => run_sync k (add_pending (PTimer (now w + ms) cb) w)
  | AwaitTimeout ms k => (w, AtTimeout ms k)
  | AwaitAnalyze files k => (w, AtAnalyze files k)
  | AwaitSend d u to k => (w, AtSend d u to k)
  end.

(** Start or resume a handler: run it to its next [await] and queue what is
    left of it. *)
Definition spawn (p : Prog unit) (w : World) : World :=
  match run_sync p w with
  | (w', Finished _) => w'
  | (w', Uncaught _) => w'
  | (w', AtTimeout ms k) => add_pending (PTimer (now w' + ms) k) w'
  | (w', AtAnalyze files k) => add_pending (PAnalysis files k) w'
  | (w', AtSend d u to k) => add_pending (PSend d u to k) w'
  end.

(** What can happen: the user acts on what is rendered, time passes, a
    timer that is due fires, a collaborator settles.  How long a
    collaborator takes is not constrained. *)
Inductive Event :=
| OnLogin (userInfo : UserProfile)
| OnLogout
| OnUpload (files : list File)
| OnReset
| OnDownloadReport (mail : option string)
| Elapse (dt : N)                               (* time passes *)
| Fire (i : nat)                                (* the i-th pending entry, a due timer *)
| Analyzed (i : nat) (o : Outcome CrimeSceneAnalysis)
| Sent (i : nat) (o : Outcome bool).

Definition remove_nth {A} (i : nat) (l : list A) : list A :=
  firstn i l ++ skipn (S i) l.

(** Time cannot pass beyond a timer that is due. *)
Definition not_overdue (t : N) (p : Pending) : bool :=
  match p with
  | PTimer due _ => (t <=? due)%N
  | _ => true
  end.

(** An event is enabled when the component offering it is rendered: [Login]
    when there is no user; otherwise the logout button of the header, and
    [ImageUploader] or [Dashboard] according to the status.  [ImageUploader]
    is taken to be able to call [onUpload] whenever it is rendered; runs
    that restrict this are selected with [allowed] below. *)
Definition exec_event (ev : Event) (w : World) : option World :=
  match ev with
  | OnLogin userInfo =>
      match render (app w) with
      | LoginView => Some (spawn (handleLogin userInfo) w)
      | _ => None
      end
  | OnLogout =>
      match render (app w) with
      | LoginView => None
      | _ => Some (spawn handleLogout w)
      end
  | OnUpload files =>
      match render (app w) with
      | UploaderView _ => Some (spawn (handleUpload files) w)
      | _ => None
      end
  | OnReset =>
      match render (app w) with
      | DashboardView _ _ => Some (spawn onReset w)
      | _ => None
      end
  | OnDownloadReport mail =>
      match render (app w) with
      | DashboardView _ _ => Some (spawn (handleDownloadReport (app w) mail) w)
      | _ => None
      end
  | Elapse dt =>
      if forallb (not_overdue (now w + dt)) (pending w)
      then Some (elapse dt w) else None
  | Fire i =>
      match nth_error (pending w) i with
      | Some (PTimer due k) =>
          if (due <=? now w)%N
          then Some (spawn k (set_pending (remove_nth i (pending w)) w))
          else None
      | _ => None
      end
  | Analyzed i o =>
      match nth_error (pending w) i with
      | Some (PAnalysis _ k) =>
          Some (spawn (k o) (set_pending (remove_nth i (pending w)) w))
      | _ => None
      end
  | Sent i o =>
      match nth_error (pending w) i with
      | Some (PSend _ _ _ k) =>
          Some (spawn (k o) (set_pending (remove_nth i (pending w)) w))
      | _ => None
      end
  end.

(** [allowed] says which events the run is allowed to contain. *)
Fixpoint exec (allowed : World -> Event -> bool) (evs : list Event) (w : World)
  : option World :=
  match evs with
  | [] => Some w
  | ev :: evs' =>
      if allowed w ev then
        match exec_event ev w with
        | Some w' => exec allowed evs' w'
        | None => None
        end
      else None
  end.

Definition any_event (_ : World) (_ : Event) : bool := true.

Definition reachable (w : World) : Prop :=
  exists evs, exec any_event evs initialWorld = Some w.

(* ------------------------------------------------------------------ *)
(** ** Auxiliary definitions for the statements *)

(** [p] then [f], run in one go. *)
Definition then_run {A B} (r1 : Run A) (f : A -> World -> Run B) : Run B :=
  match completion r1 with
  | Returned a =>
      let r2 := f a (final r1) in
      mkRun (final r2) (completion r2) (effects r1 ++ effects r2)
  | Threw e => mkRun (final r1) (Threw e) (effects r1)
  end.

(** [try { body } catch { h }], run in one go. *)
Definition catch_run {A} (r1 : Run A) (h : JsError -> World -> Run A) : Run A :=
  match completion r1 with
  | Returned a => mkRun (final r1) (Returned a) (effects r1)
  | Threw e =>
      let r2 := h e (final r1) in
      mkRun (final r2) (completion r2) (effects r1 ++ effects r2)
  end.

(** The object URLs created for [files] when [n] exist already. *)
Fixpoint mint_urls (n : nat) (files : list File) : list string :=
  match files with
  | [] => []
  | _ :: fs => blob_url n :: mint_urls (S n) fs
  end.

Fixpoint mint_effects (n : nat) (files : list File) : list Effect :=
  match files with
  | [] => []
  | f :: fs => ECreateObjectURL f (blob_url n) :: mint_effects (S n) fs
  end.

Definition mint_all (files : list File) (w : World) : World :=
  fold_left (fun w' _ => minted w') files w.

(** The world when [handleUpload files], started in [w], reaches its first
    [await]. *)
Definition uploading_world (files : list File) (w : World) : World :=
  set_uploadedImages (fun prev => prev ++ mint_urls (blobs w) files)
    (mint_all files (set_status UPLOADING w)).

(** What [handleUpload files], started in [w], does up to and including the
    call of the analysis collaborator. *)
Definition upload_prefix (files : list File) (w : World) : list Effect :=
  ESetStatus UPLOADING
  :: mint_effects (blobs w) files
  ++ [ESetUploadedImages (uploadedImages (app w) ++ mint_urls (blobs w) files);
      EAwaitTimeout 1000;
      ESetStatus ANALYZING;
      ECallAnalyze files].

(** The world in which the analysis collaborator settles, for
    [handleUpload files] started in [w]. *)
Definition settling_world (env : Env) (files : list File) (w : World) : World :=
  meanwhile env (InAnalyze files)
    (set_status ANALYZING
       (meanwhile env (InTimeout 1000) (uploading_world files w))).

(* ------------------------------------------------------------------ *)
(** ** Properties of states, and the continuations of a submission *)

(** "A result is stored exactly when the status is COMPLETE." *)
Definition result_iff_complete (s : AppState) : Prop :=
  analysisData s <> None <-> status s = COMPLETE.

(** "References are held only while UPLOADING, ANALYZING or COMPLETE." *)
Definition images_only_while_active (s : AppState) : Prop :=
  uploadedImages s <> [] ->
  status s = UPLOADING \/ status s = ANALYZING \/ status s = COMPLETE.

(** The image references of the stored result. *)
Definition stored_imageUrls (s : AppState) : option (list string) :=
  match analysisData s with
  | Some d => imageUrls d
  | None => None
  end.

(** The callback of the error timer: it sets the status to IDLE. *)
Definition resets_to_idle (k : Prog unit) : Prop :=
  forall w, run_sync k w = (set_status IDLE w, Finished tt).

(** What is left of [handleUpload] at [await analyzeCrimeSceneImages]. *)
Definition analysis_task (k : Outcome CrimeSceneAnalysis -> Prog unit) : Prop :=
  forall o w,
    match o with
    | Resolved d =>
        exists urls,
          run_sync (k o) w
          = (set_status COMPLETE
               (set_analysisData (Some (with_imageUrls d urls)) w),
             Finished tt)
    | Rejected _ =>
        exists cb,
          run_sync (k o) w
          = (add_pending (PTimer (now w + 3000) cb) (set_status ERROR w),
             Finished tt)
          /\ resets_to_idle cb
    end.

(** What is left of [handleUpload] at its first [await]. *)
Definition delay_task (k : Prog unit) : Prop :=
  forall w,
    exists files k2,
      run_sync k w = (set_status ANALYZING w, AtAnalyze files k2)
      /\ analysis_task k2.

(** What is left of [handleDownloadReport] at its [await]. *)
Definition send_task (k : Outcome bool -> Prog unit) : Prop :=
  forall o w,
    run_sync (k o) w = (w, Finished tt)
    \/ exists e, run_sync (k o) w = (w, Uncaught e).

Inductive pending_ok : Pending -> Prop :=
| ok_delay due k : delay_task k -> pending_ok (PTimer due k)
| ok_reset due k : resets_to_idle k -> pending_ok (PTimer due k)
| ok_analysis files k : analysis_task k -> pending_ok (PAnalysis files k)
| ok_send d u to k : send_task k -> pending_ok (PSend d u to k).

(** Entries left by [handleUpload]: its two awaits and its error timer. *)
Definition of_submission (p : Pending) : bool :=
  match p with
  | PTimer _ _ | PAnalysis _ _ => true
  | PSend _ _ _ _ => false
  end.

Definition busy (w : World) : bool := existsb of_submission (pending w).

(** Runs in which a submission is started only when no earlier one has
    anything pending. *)
Definition one_at_a_time (w : World) (ev : Event) : bool :=
  match ev with
  | OnUpload _ => negb (busy w)
  | _ => true
  end.

(** The invariant of such runs. *)
Definition inv_of (s : AppState) (l : list Pending) : Prop :=
  result_iff_complete s
  /\ Forall pending_ok l
  /\ List.length (filter of_submission l) <= 1
  /\ (filter of_submission l <> [] -> analysisData s = None).

Definition sequential_inv (w : World) : Prop := inv_of (app w) (pending w).

(** The object URLs a run created, in order. *)
Definition created_urls (tr : list Effect) : list string :=
  flat_map (fun e => match e with ECreateObjectURL _ url => [url] | _ => [] end) tr.

(** The writes of a run to the four state cells. *)
Definition is_setter (e : Effect) : bool :=
  match e with
  | ESetUser _ | ESetStatus _ | ESetAnalysisData _ | ESetUploadedImages _ => true
  | _ => false
  end.

(* ------------------------------------------------------------------ *)
(** ** Sample values and runs *)

Definition officer : UserProfile :=
  {| up_name := "Ada Vance"; email := "ada.vance@pd.example"; badgeId := "B-7" |}.

Definition photo1 : File := {| file_name := "hallway.png"; file_size := 2048 |}.
Definition photo2 : File := {| file_name := "kitchen.png"; file_size := 4096 |}.

Definition report0 : CrimeSceneAnalysis :=
  {| summary := "Forced entry";
     locationDetails := "Ground floor";
     evidence := [];
     timeline := [];
     hypotheses := [];
     stats := {| typeDistribution := []; confidenceMetrics := [] |};
     imageUrls := None |}.

Definition boom : JsError := Error "quota exceeded".

Definition loggedIn : World := set_user (Some officer) initialWorld.

(** Collaborators that succeed, and an analysis that fails, nothing else
    running. *)
Definition resolving : Env :=
  alone (fun _ => Resolved report0) (fun _ _ _ => Resolved true).
Definition rejecting : Env :=
  alone (fun _ => Rejected boom) (fun _ _ _ => Resolved true).

(** One submission that succeeds. *)
Definition good_submission : list Event :=
  [OnLogin officer; OnUpload [photo1]; Elapse 1000; Fire 0;
   Elapse 2500; Analyzed 0 (Resolved report0)].

(** One submission that fails. *)
Definition failed_submission : list Event :=
  [OnLogin officer; OnUpload [photo1]; Elapse 1000; Fire 0;
   Elapse 2500; Analyzed 0 (Rejected boom)].

(** A submission is still being analyzed when the user logs out, logs in
    again and, the status being IDLE, submits again; then the first
    analysis resolves. *)
Definition overlapping_submissions : list Event :=
  [OnLogin officer; OnUpload [photo1]; Elapse 1000; Fire 0;
   Elapse 500; OnLogout; Elapse 100; OnLogin officer; Elapse 100; OnUpload [photo2];
   Elapse 300; Analyzed 0 (Resolved report0)].

(** ... then the delay of the second submission elapses. *)
Definition overlap_then_analyzing : list Event :=
  overlapping_submissions ++ [Elapse 700; Fire 0].

(** ... and its analysis fails, and the error timer fires. *)
Definition overlap_then_failure : list Event :=
  overlap_then_analyzing ++ [Elapse 400; Analyzed 0 (Rejected boom)].

Definition overlap_then_idle : list Event :=
  overlap_then_failure ++ [Elapse 3000; Fire 0].

(** What the statements look at. *)
Definition observe (o : option World)
  : option (AnalysisStatus * option (list string) * list string) :=
  match o with
  | Some w => Some (status (app w), stored_imageUrls (app w), uploadedImages (app w))
  | None => None
  end.

(** Runs in which files are submitted only while the status is IDLE. *)
Definition upload_when_idle (w : World) (ev : Event) : bool :=
  match ev with
  | OnUpload _ => AnalysisStatus_eqb (status (app w)) IDLE
  | _ => true
  end.

(* ------------------------------------------------------------------ *)
(** ** The event loop in any run *)

(** What holds of the pending continuations and of the stored result in
    every run, overlapping submissions included. *)
Definition loop_inv (w : World) : Prop :=
  Forall pending_ok (pending w)
  /\ (status (app w) = COMPLETE -> analysisData (app w) <> None)
  /\ (forall d, analysisData (app w) = Some d -> imageUrls d <> None).

(** The world the event loop resumes a pending entry in. *)
Definition without (i : nat) (w : World) : World :=
  set_pending (remove_nth i (pending w)) w.

(** What an enabled event does, handler by handler. *)
Definition event_shape (ev : Event) (w w' : World) : Prop :=
  match ev with
  | OnLogin userInfo =>
      user (app w) = None /\ w' = set_user (Some userInfo) w
  | OnLogout =>
      user (app w) <> None
      /\ w' = mkWorld initialState (blobs w) (now w) (pending w)
  | OnUpload files =>
      user (app w) <> None /\ status (app w) <> COMPLETE
      /\ exists k,
           w' = add_pending (PTimer (now w + 1000) k) (uploading_world files w)
           /\ delay_task k
  | OnReset =>
      user (app w) <> None /\ status (app w) = COMPLETE
      /\ analysisData (app w) <> None
      /\ w' = mkWorld {| user := user (app w); status := IDLE;
                         analysisData := None; uploadedImages := [] |}
                      (blobs w) (now w) (pending w)
  | OnDownloadReport mail =>
      exists d u k,
        analysisData (app w) = Some d /\ user (app w) = Some u
        /\ status (app w) = COMPLETE
        /\ w' = add_pending (PSend d u (or_else mail (email u)) k) w
        /\ send_task k
  | Elapse dt => w' = elapse dt w
  | Fire i =>
      exists due k,
        nth_error (pending w) i = Some (PTimer due k) /\ (due <= now w)%N
        /\ ((exists files k2,
               w' = add_pending (PAnalysis files k2)
                      (set_status ANALYZING (without i w))
               /\ analysis_task k2)
            \/ w' = set_status IDLE (without i w))
  | Analyzed i o =>
      exists files k,
        nth_error (pending w) i = Some (PAnalysis files k)
        /\ match o with
           | Resolved d =>
               exists urls,
                 w' = set_status COMPLETE
                        (set_analysisData (Some (with_imageUrls d urls))
                           (without i w))
           | Rejected _ =>
               exists cb,
                 w' = add_pending (PTimer (now w + 3000) cb)
                        (set_status ERROR (without i w))
                 /\ resets_to_idle cb
           end
  | Sent i o =>
      exists d u to k,
        nth_error (pending w) i = Some (PSend d u to k) /\ w' = without i w
  end.

(** The accumulated list after an enabled event. *)
Definition images_after (ev : Event) (w : World) : list string :=
  match ev with
  | OnLogout | OnReset => []
  | OnUpload files => uploadedImages (app w) ++ mint_urls (blobs w) files
  | _ => uploadedImages (app w)
  end.

(** The user after an enabled event. *)
Definition user_after (ev : Event) (w : World) : option UserProfile :=
  match ev with
  | OnLogin userInfo => Some userInfo
  | OnLogout => None
  | _ => user (app w)
  end.

(** The world a run ends in ([initialWorld] if the run is not possible). *)
Definition world_after (evs : list Event) : World :=
  match exec any_event evs initialWorld with
  | Some w => w
  | None => initialWorld
  end.

(** Sample worlds: a file has just been submitted; it is being analyzed;
    its result is displayed. *)
Definition uploadingWorld : World :=
  world_after [OnLogin officer; OnUpload [photo1]].
Definition analyzingWorld : World :=
  world_after [OnLogin officer; OnUpload [photo1]; Elapse 1000; Fire 0].
Definition completedWorld : World := world_after good_submission.

(** A failed submission, the error timer, and a second submission that
    succeeds. *)
Definition failed_then_retried (files1 files2 : list File) (e : JsError)
  (d : CrimeSceneAnalysis) : list Event :=
  [OnUpload files1; Elapse 1000; Fire 0; Analyzed 0 (Rejected e);
   Elapse 3000; Fire 0]
  ++ [OnUpload files2; Elapse 1000; Fire 0; Analyzed 0 (Resolved d)].

(** A pending analysis resolves after the user has logged out, and then
    somebody logs in. *)
Definition late_result (i : nat) (d : CrimeSceneAnalysis) (u2 : UserProfile)
  : list Event :=
  [OnLogout; Analyzed i (Resolved d); OnLogin u2].

(** The statuses a submission passes through or ends its failure in. *)
Definition transient (st : AnalysisStatus) : bool :=
  match st with
  | UPLOADING | ANALYZING | ERROR => true
  | IDLE | COMPLETE => false
  end.

(** "A transient status has something pending that will write it again." *)
Definition never_stuck (w : World) : Prop :=
  transient (status (app w)) = true -> busy w = true.
(** The object URLs a run created, each with the file it was created for,
    in order. *)
Definition created_refs (tr : list Effect) : list (File * string) :=
  flat_map (fun e => match e with
                     | ECreateObjectURL file url => [(file, url)]
                     | _ => []
                     end) tr.

(* ------------------------------------------------------------------ *)
(** ** Laws of the two interpretations *)

Lemma then_run_after {A B} (e : Effect) (r : Run A) (f : A -> World -> Run B) :
  then_run (after e r) f = after e (then_run r f).
Proof.
  unfold then_run, after; simpl.
  destruct (completion r); reflexivity.
Qed.

Lemma drive_bind {A B} (env : Env) (p : Prog A) (f : A -> Prog B) (w : World) :
  drive env (bind p f) w
  = then_run (drive env p w) (fun a w' => drive env (f a) w').
Proof.
  revert w.
  induction p; intros w; simpl;
    try (rewrite then_run_after; f_equal; auto; fail).
  - unfold then_run; simpl. destruct (drive env (f a) w); reflexivity.
  - reflexivity.
Qed.

Lemma catch_run_after {A} (e : Effect) (r : Run A) (h : JsError -> World -> Run A) :
  catch_run (after e r) h = after e (catch_run r h).
Proof.
  unfold catch_run, after; simpl.
  destruct (completion r); reflexivity.
Qed.

Lemma drive_try_catch {A} (env : Env) (body : Prog A) (h : JsError -> Prog A)
  (w : World) :
  drive env (try_catch body h) w
  = catch_run (drive env body w) (fun e w' => drive env (h e) w').
Proof.
  revert w.
  induction body; intros w; simpl;
    try (rewrite catch_run_after; f_equal; auto; fail).
  - reflexivity.
  - unfold catch_run; simpl. destruct (drive env (h e) w); reflexivity.
Qed.

Lemma mint_urls_length (files : list File) :
  forall n, List.length (mint_urls n files) = List.length files.
Proof.
  induction files as [|f fs IH]; intros n; simpl; [reflexivity|].
  now rewrite IH.
Qed.

Lemma mint_all_frame (files : list File) :
  forall w, app (mint_all files w) = app w
            /\ now (mint_all files w) = now w
            /\ pending (mint_all files w) = pending w
            /\ blobs (mint_all files w) = List.length files + blobs w.
Proof.
  unfold mint_all.
  induction files as [|f fs IH]; intros w; simpl.
  - repeat split.
  - destruct (IH (minted w)) as (Ha & Hn & Hp & Hb).
    rewrite Ha, Hn, Hp, Hb. simpl. repeat split. lia.
Qed.

Lemma drive_mapM_createObjectURL (env : Env) (files : list File) :
  forall w,
    drive env (mapM createObjectURL files) w
    = mkRun (mint_all files w) (Returned (mint_urls (blobs w) files))
            (mint_effects (blobs w) files).
Proof.
  induction files as [|f fs IH]; intros w.
  - reflexivity.
  - cbn [mapM createObjectURL bind drive].
    rewrite drive_bind, IH.
    unfold then_run, after; simpl.
    now rewrite app_nil_r.
Qed.

Lemma run_sync_bind {A B} (p : Prog A) (f : A -> Prog B) (w : World) :
  run_sync (bind p f) w
  = match run_sync p w with
    | (w', Finished a) => run_sync (f a) w'
    | (w', Uncaught e) => (w', Uncaught e)
    | (w', AtTimeout ms k) => (w', AtTimeout ms (bind k f))
    | (w', AtAnalyze files k) => (w', AtAnalyze files (fun o => bind (k o) f))
    | (w', AtSend d u to k) => (w', AtSend d u to (fun o => bind (k o) f))
    end.
Proof.
  revert w.
  induction p; intros w; simpl; auto.
Qed.

Lemma run_sync_mapM_createObjectURL (files : list File) :
  forall w,
    run_sync (mapM createObjectURL files) w
    = (mint_all files w, Finished (mint_urls (blobs w) files)).
Proof.
  induction files as [|f fs IH]; intros w.
  - reflexivity.
  - cbn [mapM createObjectURL bind run_sync].
    rewrite run_sync_bind, IH.
    reflexivity.
Qed.

(** [handleUpload], run to completion. *)
Lemma drive_handleUpload (env : Env) (files : list File) (w : World) :
  drive env (handleUpload files) w
  = let urls := mint_urls (blobs w) files in
    let w2 := settling_world env files w in
    match analysis env files with
    | Resolved data =>
        mkRun (set_status COMPLETE
                 (set_analysisData (Some (with_imageUrls data urls)) w2))
              (Returned tt)
              (upload_prefix files w
               ++ [ESetAnalysisData (Some (with_imageUrls data urls));
                   ESetStatus COMPLETE])
    | Rejected e =>
        mkRun (add_pending (PTimer (now w2 + 3000) (setStatus IDLE))
                 (set_status ERROR w2))
              (Returned tt)
              (upload_prefix files w
               ++ [EConsoleError e; ESetStatus ERROR; ESetTimeout 3000])
    end.
Proof.
  unfold handleUpload.
  cbn [bind setStatus drive].
  rewrite drive_bind, drive_mapM_createObjectURL.
  unfold then_run. cbn [completion final effects].
  cbn [bind setUploadedImages sleep drive].
  rewrite drive_try_catch.
  cbn [analyzeCrimeSceneImages bind drive].
  destruct (mint_all_frame files (set_status UPLOADING w)) as (Ha & _).
  unfold settling_world, uploading_world, upload_prefix.
  destruct (analysis env files) as [data|e];
    cbn; rewrite Ha; cbn; rewrite <- app_assoc; reflexivity.
Qed.

(* ------------------------------------------------------------------ *)
(** ** The handlers in the event loop *)

Lemma setStatus_IDLE_resets : resets_to_idle (setStatus IDLE).
Proof. intros w. reflexivity. Qed.

(** [handleUpload] up to its first [await], and what is left of it. *)
Lemma run_sync_handleUpload (files : list File) (w : World) :
  exists k,
    run_sync (handleUpload files) w = (uploading_world files w, AtTimeout 1000 k)
    /\ delay_task k
    /\ forall w1,
         exists k2,
           run_sync k w1 = (set_status ANALYZING w1, AtAnalyze files k2)
           /\ forall o w2,
                run_sync (k2 o) w2
                = match o with
                  | Resolved d =>
                      (set_status COMPLETE
                         (set_analysisData
                            (Some (with_imageUrls d (mint_urls (blobs w) files))) w2),
                       Finished tt)
                  | Rejected _ =>
                      (add_pending (PTimer (now w2 + 3000) (setStatus IDLE))
                         (set_status ERROR w2),
                       Finished tt)
                  end.
Proof.
  unfold handleUpload.
  cbn [bind setStatus run_sync].
  rewrite run_sync_bind, run_sync_mapM_createObjectURL.
  cbn [bind setUploadedImages sleep run_sync].
  eexists. split; [reflexivity|]. split.
  - intros w1. cbn. do 2 eexists. split; [reflexivity|].
    intros [d|e] w2; cbn.
    + eexists. reflexivity.
    + eexists. split; [reflexivity|]. apply setStatus_IDLE_resets.
  - intros w1. cbn. eexists. split; [reflexivity|].
    intros [d|e] w2; reflexivity.
Qed.

Lemma uploading_world_frame (files : list File) (w : World) :
  app (uploading_world files w)
  = {| user := user (app w);
       status := UPLOADING;
       analysisData := analysisData (app w);
       uploadedImages := uploadedImages (app w) ++ mint_urls (blobs w) files |}
  /\ now (uploading_world files w) = now w
  /\ pending (uploading_world files w) = pending w.
Proof.
  unfold uploading_world.
  destruct (mint_all_frame files (set_status UPLOADING w)) as (Ha & Hn & Hp & _).
  cbn. rewrite Ha, Hn, Hp. repeat split.
Qed.

Lemma spawn_handleLogin (u : UserProfile) (w : World) :
  spawn (handleLogin u) w = set_user (Some u) w.
Proof. reflexivity. Qed.

Lemma spawn_handleLogout (w : World) :
  spawn handleLogout w
  = mkWorld {| user := None; status := IDLE; analysisData := None;
               uploadedImages := [] |}
            (blobs w) (now w) (pending w).
Proof. reflexivity. Qed.

Lemma spawn_onReset (w : World) :
  spawn onReset w
  = mkWorld {| user := user (app w); status := IDLE; analysisData := None;
               uploadedImages := [] |}
            (blobs w) (now w) (pending w).
Proof. reflexivity. Qed.

Lemma spawn_handleUpload (files : list File) (w : World) :
  exists k,
    spawn (handleUpload files) w
    = add_pending (PTimer (now w + 1000) k) (uploading_world files w)
    /\ delay_task k.
Proof.
  destruct (run_sync_handleUpload files w) as (k & Hk & Hd & _).
  exists k. split; [|exact Hd].
  unfold spawn. rewrite Hk.
  destruct (uploading_world_frame files w) as (_ & Hn & _).
  now rewrite Hn.
Qed.

Lemma spawn_handleDownloadReport (s : AppState) (mail : option string) (w : World) :
  match analysisData s, user s with
  | Some d, Some u =>
      exists k,
        spawn (handleDownloadReport s mail) w
        = add_pending (PSend d u (or_else mail (email u)) k) w
        /\ send_task k
  | _, _ => spawn (handleDownloadReport s mail) w = w
  end.
Proof.
  unfold handleDownloadReport.
  destruct (analysisData s) as [d|]; [|reflexivity].
  destruct (user s) as [u|]; [|reflexivity].
  eexists. split; [reflexivity|].
  intros [[|]|e] w'; cbn; eauto.
Qed.

(** Removing the entry the event loop resumes. *)
Lemma remove_nth_split {A} (l : list A) (i : nat) (x : A) :
  nth_error l i = Some x ->
  exists l1 l2, l = l1 ++ x :: l2 /\ remove_nth i l = l1 ++ l2.
Proof.
  revert i. induction l as [|a l IH]; intros [|i] H; simpl in H; try discriminate.
  - injection H as ->. exists [], l. split; reflexivity.
  - destruct (IH i H) as (l1 & l2 & -> & Hr).
    exists (a :: l1), l2. split; [reflexivity|].
    unfold remove_nth in *.
    change (a :: (firstn i (l1 ++ x :: l2) ++ skipn (S i) (l1 ++ x :: l2))
            = a :: (l1 ++ l2)).
    now rewrite Hr.
Qed.

Lemma existsb_filter_nil {A} (f : A -> bool) (l : list A) :
  existsb f l = false <-> filter f l = [].
Proof.
  induction l as [|a l IH]; simpl; [tauto|].
  destruct (f a); simpl; [split; discriminate | exact IH].
Qed.

(* ------------------------------------------------------------------ *)
(** ** Runs with one submission at a time *)

Lemma inv_of_quiet (s : AppState) (l : list Pending) :
  Forall pending_ok l -> filter of_submission l = [] ->
  result_iff_complete s -> inv_of s l.
Proof.
  intros Hok Hf Hr.
  split; [exact Hr|]. split; [exact Hok|]. split.
  - rewrite Hf. simpl. lia.
  - intros H. now rewrite Hf in H.
Qed.

Lemma inv_of_busy (s : AppState) (l : list Pending) :
  Forall pending_ok l -> List.length (filter of_submission l) <= 1 ->
  analysisData s = None -> status s <> COMPLETE -> inv_of s l.
Proof.
  intros Hok Hlen Hd Hs.
  split; [|auto].
  split; intros H; [now rewrite Hd in H | contradiction].
Qed.

Lemma no_result_not_complete (s : AppState) :
  result_iff_complete s -> analysisData s = None -> status s <> COMPLETE.
Proof.
  intros [_ H] Hd Hs. apply H in Hs. now rewrite Hd in Hs.
Qed.

(** Taking out the pending entry of the submission leaves none. *)
Lemma inv_of_take_submission (s : AppState) (l1 l2 : list Pending) (x : Pending) :
  inv_of s (l1 ++ x :: l2) -> of_submission x = true ->
  pending_ok x
  /\ Forall pending_ok (l1 ++ l2)
  /\ filter of_submission (l1 ++ l2) = []
  /\ analysisData s = None
  /\ status s <> COMPLETE.
Proof.
  intros (Hr & Hok & Hlen & Hbusy) Hx.
  rewrite filter_app in Hlen, Hbusy. simpl in Hlen, Hbusy. rewrite Hx in Hlen, Hbusy.
  rewrite length_app in Hlen. simpl in Hlen.
  apply Forall_app in Hok as (Hok1 & Hok2).
  assert (Hd : analysisData s = None).
  { apply Hbusy. destruct (filter of_submission l1); discriminate. }
  repeat split.
  - now inversion Hok2.
  - apply Forall_app. split; [exact Hok1 | now inversion Hok2].
  - rewrite filter_app.
    destruct (filter of_submission l1), (filter of_submission l2);
      simpl in *; try reflexivity; lia.
  - exact Hd.
  - now apply no_result_not_complete.
Qed.

(** Taking out a pending dispatch changes nothing for the submission. *)
Lemma inv_of_take_send (s : AppState) (l1 l2 : list Pending) (x : Pending) :
  inv_of s (l1 ++ x :: l2) -> of_submission x = false ->
  pending_ok x /\ inv_of s (l1 ++ l2).
Proof.
  intros (Hr & Hok & Hlen & Hbusy) Hx.
  rewrite filter_app in Hlen, Hbusy. simpl in Hlen, Hbusy. rewrite Hx in Hlen, Hbusy.
  apply Forall_app in Hok as (Hok1 & Hok2).
  split; [now inversion Hok2|].
  repeat split; try apply Hr.
  - apply Forall_app. split; [exact Hok1 | now inversion Hok2].
  - now rewrite filter_app.
  - now rewrite filter_app.
Qed.

Lemma inv_of_add (s : AppState) (l : list Pending) (x : Pending) :
  Forall pending_ok l -> filter of_submission l = [] -> pending_ok x ->
  analysisData s = None -> status s <> COMPLETE ->
  inv_of s (l ++ [x]).
Proof.
  intros Hok Hf Hx Hd Hs. apply inv_of_busy; auto.
  - apply Forall_app. split; auto.
  - rewrite filter_app, Hf. simpl. destruct (of_submission x); simpl; lia.
Qed.

Lemma sequential_inv_initial : sequential_inv initialWorld.
Proof.
  apply inv_of_quiet; [constructor | reflexivity |].
  split; [intros H; now contradiction H | discriminate].
Qed.

Lemma sequential_step (ev : Event) (w w' : World) :
  sequential_inv w -> one_at_a_time w ev = true ->
  exec_event ev w = Some w' -> sequential_inv w'.
Proof.
  unfold sequential_inv.
  intros Hinv Hal Hex.
  destruct ev as [u| |files| |mail|dt|i|i o|i o]; simpl in Hex.
  - (* OnLogin *)
    destruct (render (app w)); try discriminate.
    injection Hex as <-. rewrite spawn_handleLogin.
    destruct Hinv as (Hr & Hrest). split; [|exact Hrest].
    exact Hr.
  - (* OnLogout *)
    destruct (render (app w)); try discriminate;
      injection Hex as <-; rewrite spawn_handleLogout; simpl;
      destruct Hinv as (Hr & Hok & Hlen & Hbusy);
      (repeat split; auto; try (intros H; simpl in H; congruence)).
  - (* OnUpload *)
    unfold render in Hex.
    destruct (user (app w)) as [u|] eqn:Hu; try discriminate.
    simpl in Hal. apply negb_true_iff in Hal.
    unfold busy in Hal. apply existsb_filter_nil in Hal.
    destruct Hinv as (Hr & Hok & Hlen & Hbusy).
    assert (Hs : status (app w) <> COMPLETE).
    { intros Hs. rewrite Hs in Hex. destruct (analysisData (app w)); discriminate. }
    assert (Hd : analysisData (app w) = None).
    { destruct (analysisData (app w)) eqn:E; [|reflexivity].
      exfalso. apply Hs, Hr. rewrite E. discriminate. }
    destruct (status (app w)) eqn:Est; try congruence;
      simpl in Hex; injection Hex as <-;
      destruct (spawn_handleUpload files w) as (k & -> & Hk);
      destruct (uploading_world_frame files w) as (Ha & _ & Hp);
      unfold add_pending; cbn [app pending]; rewrite Ha, Hp;
      (apply inv_of_add; simpl;
       [exact Hok | exact Hal | now apply ok_delay | exact Hd | discriminate]).
  - (* OnReset *)
    destruct (render (app w)); try discriminate.
    injection Hex as <-. rewrite spawn_onReset. simpl.
    destruct Hinv as (Hr & Hok & Hlen & Hbusy).
    repeat split; auto; intros H; simpl in H; congruence.
  - (* OnDownloadReport *)
    unfold render in Hex.
    destruct (user (app w)) as [u|] eqn:Hu; try discriminate.
    destruct (status (app w)) eqn:Est; try discriminate.
    destruct (analysisData (app w)) as [d|] eqn:Hd; try discriminate.
    injection Hex as <-.
    pose proof (spawn_handleDownloadReport (app w) mail w) as Hsp.
    rewrite Hd, Hu in Hsp. destruct Hsp as (k & -> & Hk).
    simpl.
    destruct Hinv as (Hr & Hok & Hlen & Hbusy).
    repeat split; try apply Hr.
    + apply Forall_app. split; [exact Hok|]. constructor; [|constructor].
      now apply ok_send.
    + rewrite filter_app. simpl. now rewrite app_nil_r.
    + rewrite filter_app. simpl. now rewrite app_nil_r.
  - (* Elapse *)
    destruct (forallb _ _); try discriminate.
    injection Hex as <-. exact Hinv.
  - (* Fire *)
    destruct (nth_error (pending w) i) as [[due k| |]|] eqn:Hn; try discriminate.
    destruct (due <=? now w)%N; try discriminate.
    injection Hex as <-.
    destruct (remove_nth_split _ _ _ Hn) as (l1 & l2 & Hl & ->).
    rewrite Hl in Hinv.
    destruct (inv_of_take_submission _ _ _ _ Hinv eq_refl)
      as (Hx & Hok & Hf & Hd & Hs).
    inversion Hx as [due' k' Hk|due' k' Hk| |]; subst due' k'.
    + destruct (Hk (set_pending (l1 ++ l2) w)) as (files & k2 & Hrun & Hk2).
      unfold spawn. rewrite Hrun. simpl.
      apply inv_of_add; simpl; auto; [now apply ok_analysis | discriminate].
    + unfold spawn. rewrite (Hk (set_pending (l1 ++ l2) w)). simpl.
      apply inv_of_quiet; auto.
      split; simpl; [intros H; now rewrite Hd in H | discriminate].
  - (* Analyzed *)
    destruct (nth_error (pending w) i) as [[|files k|]|] eqn:Hn; try discriminate.
    injection Hex as <-.
    destruct (remove_nth_split _ _ _ Hn) as (l1 & l2 & Hl & ->).
    rewrite Hl in Hinv.
    destruct (inv_of_take_submission _ _ _ _ Hinv eq_refl)
      as (Hx & Hok & Hf & Hd & Hs).
    inversion Hx as [| |files' k' Hk|]; subst files' k'.
    pose proof (Hk o (set_pending (l1 ++ l2) w)) as Hrun.
    destruct o as [d|e].
    + destruct Hrun as (urls & Hrun).
      unfold spawn. rewrite Hrun. simpl.
      apply inv_of_quiet; auto.
      split; simpl; [reflexivity | discriminate].
    + destruct Hrun as (cb & Hrun & Hcb).
      unfold spawn. rewrite Hrun. simpl.
      apply inv_of_add; simpl; auto; [now apply ok_reset | discriminate].
  - (* Sent *)
    destruct (nth_error (pending w) i) as [[| |d u to k]|] eqn:Hn; try discriminate.
    injection Hex as <-.
    destruct (remove_nth_split _ _ _ Hn) as (l1 & l2 & Hl & ->).
    rewrite Hl in Hinv.
    destruct (inv_of_take_send _ _ _ _ Hinv eq_refl) as (Hx & Hinv').
    inversion Hx as [| | |d' u' to' k' Hk]; subst d' u' to' k'.
    unfold spawn.
    destruct (Hk o (set_pending (l1 ++ l2) w)) as [Hrun|(e & Hrun)];
      rewrite Hrun; exact Hinv'.
Qed.

Lemma sequential_exec (evs : list Event) :
  forall w w',
    sequential_inv w -> exec one_at_a_time evs w = Some w' -> sequential_inv w'.
Proof.
  induction evs as [|ev evs IH]; intros w w' Hinv Hex; simpl in Hex.
  - now injection Hex as <-.
  - destruct (one_at_a_time w ev) eqn:Hal; try discriminate.
    destruct (exec_event ev w) as [w1|] eqn:Hev; try discriminate.
    eapply IH; [|exact Hex].
    eapply sequential_step; eauto.
Qed.

Lemma exec_any_event (allowed : World -> Event -> bool) (evs : list Event) :
  forall w w', exec allowed evs w = Some w' -> exec any_event evs w = Some w'.
Proof.
  induction evs as [|ev evs IH]; intros w w' H; simpl in *; [exact H|].
  destruct (allowed w ev); try discriminate.
  destruct (exec_event ev w) as [w1|]; try discriminate.
  now apply IH.
Qed.

(* ------------------------------------------------------------------ *)
(** ** Submitting images *)

Lemma status_writes_app (l1 l2 : list Effect) :
  status_writes (l1 ++ l2) = status_writes l1 ++ status_writes l2.
Proof. apply flat_map_app. Qed.

Lemma status_writes_mint_effects (files : list File) :
  forall n, status_writes (mint_effects n files) = [].
Proof. induction files as [|f fs IH]; intros n; simpl; auto. Qed.

Lemma data_writes_mint_effects (files : list File) :
  forall n, data_writes (mint_effects n files) = [].
Proof. induction files as [|f fs IH]; intros n; simpl; auto. Qed.

Lemma created_urls_mint_effects (files : list File) :
  forall n, created_urls (mint_effects n files) = mint_urls n files.
Proof.
  induction files as [|f fs IH]; intros n; simpl; [reflexivity|].
  now rewrite IH.
Qed.

Lemma status_writes_upload_prefix (files : list File) (w : World) (tl : list Effect) :
  status_writes (upload_prefix files w ++ tl)
  = UPLOADING :: ANALYZING :: status_writes tl.
Proof.
  unfold upload_prefix.
  rewrite status_writes_app. cbn [status_writes flat_map app].
  change (flat_map _ ?l) with (status_writes l).
  rewrite status_writes_app, status_writes_mint_effects. reflexivity.
Qed.

Lemma data_writes_upload_prefix (files : list File) (w : World) (tl : list Effect) :
  data_writes (upload_prefix files w ++ tl) = data_writes tl.
Proof.
  unfold upload_prefix, data_writes.
  rewrite flat_map_app. cbn [flat_map app].
  rewrite flat_map_app.
  change (flat_map _ (mint_effects ?n ?l)) with (data_writes (mint_effects n l)).
  rewrite data_writes_mint_effects. reflexivity.
Qed.

Lemma created_urls_upload_prefix (files : list File) (w : World) (tl : list Effect) :
  created_urls (upload_prefix files w ++ tl)
  = mint_urls (blobs w) files ++ created_urls tl.
Proof.
  unfold upload_prefix, created_urls.
  rewrite flat_map_app. cbn [flat_map app].
  rewrite flat_map_app.
  change (flat_map _ (mint_effects ?n ?l)) with (created_urls (mint_effects n l)).
  rewrite created_urls_mint_effects. cbn [flat_map app].
  now rewrite app_nil_r.
Qed.

(** C1.  A submission of a non-empty list of files started while the status
    is IDLE goes through UPLOADING and ANALYZING and ends in exactly one of
    COMPLETE and ERROR, however the analysis collaborator settles and
    whatever else runs while the submission is suspended.
    - Run to completion, it performs exactly these effects, in this order:
      it writes UPLOADING, creates the references and appends them, awaits
      the timeout of 1000 ms, writes ANALYZING, awaits the analysis
      collaborator, and then either stores the result and writes COMPLETE
      or logs the failure, writes ERROR and sets the error timer; its
      promise is fulfilled, and the status is then COMPLETE in the first
      case and ERROR in the second.
    - In the event loop its first step ends suspended at the timeout with
      the status UPLOADING; resumed, in whatever world, its second step
      writes ANALYZING and nothing else and ends suspended at the call of
      the collaborator; resumed with the outcome, its third step finishes
      with the status COMPLETE if the collaborator resolved and ERROR if
      it rejected. *)
Theorem submission_status_path (env : Env) (files : list File) (w : World) :
  files <> [] ->
  status (app w) = IDLE ->
  let r := drive env (handleUpload files) w in
  let urls := mint_urls (blobs w) files in
  completion r = Returned tt
  /\ (exists tail,
        effects r
        = ESetStatus UPLOADING
          :: mint_effects (blobs w) files
          ++ [ESetUploadedImages (uploadedImages (app w) ++ urls);
              EAwaitTimeout 1000;
              ESetStatus ANALYZING;
              ECallAnalyze files]
          ++ tail
        /\ match analysis env files with
           | Resolved data =>
               tail = [ESetAnalysisData (Some (with_imageUrls data urls));
                       ESetStatus COMPLETE]
               /\ status (app (final r)) = COMPLETE
           | Rejected e =>
               tail = [EConsoleError e; ESetStatus ERROR; ESetTimeout 3000]
               /\ status (app (final r)) = ERROR
           end)
  /\ (status (app w) :: status_writes (effects r)
        = [IDLE; UPLOADING; ANALYZING; COMPLETE]
      /\ status (app (final r)) = COMPLETE
      \/
      status (app w) :: status_writes (effects r)
        = [IDLE; UPLOADING; ANALYZING; ERROR]
      /\ status (app (final r)) = ERROR)
  /\ (exists w1 k,
        run_sync (handleUpload files) w = (w1, AtTimeout 1000 k)
        /\ status (app w1) = UPLOADING
        /\ forall wa,
             exists k2,
               run_sync k wa = (set_status ANALYZING wa, AtAnalyze files k2)
               /\ forall o wb,
                    exists wc,
                      run_sync (k2 o) wb = (wc, Finished tt)
                      /\ status (app wc)
                         = match o with
                           | Resolved _ => COMPLETE
                           | Rejected _ => ERROR
                           end).
Proof.
  intros _ Hidle r urls. subst r urls.
  rewrite drive_handleUpload. rewrite Hidle.
  destruct (uploading_world_frame files w) as (Ha & _).
  split; [destruct (analysis env files); reflexivity|].
  split; [|split].
  - unfold upload_prefix.
    destruct (analysis env files) as [data|e]; cbn [completion final effects];
      eexists; (split; [|split; reflexivity]);
      cbn [Datatypes.app]; rewrite <- app_assoc; reflexivity.
  - destruct (analysis env files) as [data|e]; cbn [completion final effects].
    + left. split; [|reflexivity].
      now rewrite status_writes_upload_prefix.
    + right. split; [|reflexivity].
      now rewrite status_writes_upload_prefix.
  - destruct (run_sync_handleUpload files w) as (k & Hk & _ & Hrest).
    exists (uploading_world files w), k.
    split; [exact Hk|]. split; [now rewrite Ha|].
    intros wa. destruct (Hrest wa) as (k2 & Hk2 & Hfin).
    exists k2. split; [exact Hk2|].
    intros o wb. rewrite Hfin.
    destruct o as [d|e]; eexists; split; reflexivity.
Qed.

Lemma submission_status_path_witness :
  [photo1] <> []
  /\ status (app loggedIn) = IDLE
  /\ completion (drive resolving (handleUpload [photo1]) loggedIn) = Returned tt
  /\ effects (drive resolving (handleUpload [photo1]) loggedIn)
     = [ESetStatus UPLOADING;
        ECreateObjectURL photo1 (blob_url 0);
        ESetUploadedImages [blob_url 0];
        EAwaitTimeout 1000;
        ESetStatus ANALYZING;
        ECallAnalyze [photo1];
        ESetAnalysisData (Some (with_imageUrls report0 [blob_url 0]));
        ESetStatus COMPLETE].
Proof.
  split; [discriminate|]. split; [reflexivity|].
  split; [|reflexivity].
  exact (proj1 (submission_status_path resolving [photo1] loggedIn
                  (fun H => nil_cons (eq_sym H)) eq_refl)).
Defined.

(** C2, as stated, fails.  A first submission of [photo1] is still being
    analyzed when the user logs out (which empties the accumulated list),
    logs in again and submits [photo2]; when the first analysis resolves,
    the result is stored with the reference of [photo1] while the
    accumulated list holds the reference of [photo2]. *)
Lemma stored_imageUrls_not_accumulated :
  exists w,
    exec upload_when_idle overlapping_submissions initialWorld = Some w
    /\ status (app w) = COMPLETE
    /\ stored_imageUrls (app w) = Some [blob_url 0]
    /\ uploadedImages (app w) = [blob_url 1]
    /\ stored_imageUrls (app w) <> Some (uploadedImages (app w)).
Proof.
  eexists. split; [vm_compute; reflexivity|].
  repeat split; try reflexivity.
  vm_compute. discriminate.
Qed.

Lemma created_refs_mint_effects (files : list File) :
  forall n, created_refs (mint_effects n files) = combine files (mint_urls n files).
Proof.
  induction files as [|f fs IH]; intros n; simpl; [reflexivity|].
  now rewrite IH.
Qed.

Lemma created_refs_upload_prefix (files : list File) (w : World) (tl : list Effect) :
  created_refs (upload_prefix files w ++ tl)
  = combine files (mint_urls (blobs w) files) ++ created_refs tl.
Proof.
  unfold upload_prefix, created_refs.
  rewrite flat_map_app. cbn [flat_map Datatypes.app].
  rewrite flat_map_app.
  change (flat_map _ (mint_effects ?n ?l)) with (created_refs (mint_effects n l)).
  rewrite created_refs_mint_effects. cbn [flat_map Datatypes.app].
  now rewrite app_nil_r.
Qed.

Lemma mint_urls_seq (files : list File) :
  forall n, mint_urls n files = map blob_url (seq n (List.length files)).
Proof.
  induction files as [|f fs IH]; intros n; simpl; [reflexivity|].
  now rewrite IH.
Qed.

(** C2, amended.  When the analysis collaborator resolves, the result is
    stored with, as its image references, the references this submission
    created: one per submitted file, the k-th of them created for the k-th
    file, and they are the next object URLs in the order of creation.
    They are what the submission appended to the accumulated list: the
    first step of the handler leaves the list as it was followed by them,
    and so does the whole submission when nothing else writes to the list
    meanwhile.  They are therefore the whole accumulated list when that
    list was empty as the submission started and nothing else wrote to it
    before the result was stored. *)
Theorem stored_imageUrls_of_submission
  (env : Env) (files : list File) (w : World) (data : CrimeSceneAnalysis) :
  analysis env files = Resolved data ->
  let r := drive env (handleUpload files) w in
  let urls := mint_urls (blobs w) files in
  analysisData (app (final r)) = Some (with_imageUrls data urls)
  /\ stored_imageUrls (app (final r)) = Some urls
  /\ created_urls (effects r) = urls
  /\ created_refs (effects r) = combine files urls
  /\ List.length urls = List.length files
  /\ urls = map blob_url (seq (blobs w) (List.length files))
  /\ data_writes (effects r) = [Some (with_imageUrls data urls)]
  /\ filter is_setter (effects r)
     = [ESetStatus UPLOADING;
        ESetUploadedImages (uploadedImages (app w) ++ urls);
        ESetStatus ANALYZING;
        ESetAnalysisData (Some (with_imageUrls data urls));
        ESetStatus COMPLETE]
  /\ uploadedImages (app (fst (run_sync (handleUpload files) w)))
     = uploadedImages (app w) ++ urls
  /\ ((forall s w', uploadedImages (app (meanwhile env s w')) = uploadedImages (app w')) ->
      uploadedImages (app (final r)) = uploadedImages (app w) ++ urls
      /\ (uploadedImages (app w) = [] ->
          stored_imageUrls (app (final r)) = Some (uploadedImages (app (final r))))).
Proof.
  intros Hres r urls. subst r urls.
  rewrite drive_handleUpload, Hres. cbn [final effects].
  destruct (uploading_world_frame files w) as (Ha & _).
  split; [reflexivity|]. split; [reflexivity|].
  split; [rewrite created_urls_upload_prefix; cbn; now rewrite app_nil_r|].
  split; [rewrite created_refs_upload_prefix; cbn; now rewrite app_nil_r|].
  split; [apply mint_urls_length|].
  split; [apply mint_urls_seq|].
  split; [now rewrite data_writes_upload_prefix|].
  split.
  - unfold upload_prefix. cbn [Datatypes.app filter is_setter].
    rewrite !filter_app.
    assert (Hm : forall fs n, filter is_setter (mint_effects n fs) = []).
    { induction fs as [|f fs IH]; intros n; simpl; auto. }
    rewrite Hm. reflexivity.
  - split.
    + destruct (run_sync_handleUpload files w) as (k & Hk & _).
      rewrite Hk. cbn [fst]. now rewrite Ha.
    + intros Hframe.
      assert (Himg : uploadedImages
                       (app (set_status COMPLETE
                               (set_analysisData
                                  (Some (with_imageUrls data (mint_urls (blobs w) files)))
                                  (settling_world env files w))))
                     = uploadedImages (app w) ++ mint_urls (blobs w) files).
      { unfold settling_world. cbn. rewrite Hframe. cbn. now rewrite Hframe, Ha. }
      split; [exact Himg|].
      intros Hempty. rewrite Himg, Hempty. reflexivity.
Qed.

Lemma stored_imageUrls_of_submission_witness :
  analysis resolving [photo1; photo2] = Resolved report0
  /\ (forall s w',
        uploadedImages (app (meanwhile resolving s w')) = uploadedImages (app w'))
  /\ uploadedImages (app loggedIn) = []
  /\ stored_imageUrls
       (app (final (drive resolving (handleUpload [photo1; photo2]) loggedIn)))
     = Some [blob_url 0; blob_url 1]
  /\ created_refs (effects (drive resolving (handleUpload [photo1; photo2]) loggedIn))
     = [(photo1, blob_url 0); (photo2, blob_url 1)]
  /\ stored_imageUrls
       (app (final (drive resolving (handleUpload [photo1; photo2]) loggedIn)))
     = Some (uploadedImages
               (app (final (drive resolving (handleUpload [photo1; photo2]) loggedIn)))).
Proof.
  assert (Hframe : forall s w',
             uploadedImages (app (meanwhile resolving s w')) = uploadedImages (app w'))
    by (intros [] w'; reflexivity).
  pose proof (stored_imageUrls_of_submission resolving [photo1; photo2] loggedIn report0
                eq_refl) as (_ & Hurls & _ & Hrefs & _ & _ & _ & _ & _ & Hacc).
  split; [reflexivity|]. split; [exact Hframe|]. split; [reflexivity|].
  split; [exact Hurls|]. split; [exact Hrefs|].
  exact (proj2 (Hacc Hframe) eq_refl).
Defined.

(* ------------------------------------------------------------------ *)
(** ** Invariants *)

(** C3, as stated, fails.  Nothing stops a submission from starting while
    an earlier one is still pending: after [overlapping_submissions] the
    first analysis has stored its result, and when the delay of the second
    submission elapses the status becomes ANALYZING with that result still
    stored.  Every submission of the run starts with the status IDLE. *)
Lemma result_stored_while_analyzing :
  exists w,
    exec upload_when_idle overlap_then_analyzing initialWorld = Some w
    /\ reachable w
    /\ status (app w) = ANALYZING
    /\ analysisData (app w) = Some (with_imageUrls report0 [blob_url 0])
    /\ ~ result_iff_complete (app w).
Proof.
  eexists. split; [vm_compute; reflexivity|].
  split; [exists overlap_then_analyzing; vm_compute; reflexivity|].
  split; [reflexivity|]. split; [reflexivity|].
  intros [H _].
  assert (Hc : ANALYZING = COMPLETE) by (apply H; discriminate).
  discriminate Hc.
Qed.

(** C3, amended.  In every state reached by a run in which a submission is
    started only when no earlier submission has anything pending (its
    delay, its analysis call or its error timer), a result is stored if and
    only if the status is COMPLETE; in such runs every event (login,
    submission and its continuations, reset, logout, dispatch request and
    its answer, the passing of time) preserves this. *)
Theorem result_iff_complete_one_at_a_time (evs : list Event) (w : World) :
  exec one_at_a_time evs initialWorld = Some w ->
  result_iff_complete (app w).
Proof.
  intros H.
  apply (sequential_exec evs initialWorld w sequential_inv_initial H).
Qed.

Lemma result_iff_complete_one_at_a_time_witness :
  exec one_at_a_time good_submission initialWorld
  = Some {| app := {| user := Some officer;
                      status := COMPLETE;
                      analysisData := Some (with_imageUrls report0 [blob_url 0]);
                      uploadedImages := [blob_url 0] |};
            blobs := 1; now := 3500; pending := [] |}
  /\ result_iff_complete
       {| user := Some officer;
          status := COMPLETE;
          analysisData := Some (with_imageUrls report0 [blob_url 0]);
          uploadedImages := [blob_url 0] |}.
Proof.
  split; [reflexivity|].
  exact (result_iff_complete_one_at_a_time good_submission _ eq_refl).
Defined.

(** C4: what the code does.  When the analysis fails, the status becomes
    ERROR and, three seconds later, IDLE, and in both states the reference
    created for the submitted file is still in the accumulated list. *)
Theorem references_survive_failure :
  observe (exec one_at_a_time failed_submission initialWorld)
  = Some (ERROR, None, [blob_url 0])
  /\ observe (exec one_at_a_time (failed_submission ++ [Elapse 3000; Fire 0])
                initialWorld)
     = Some (IDLE, None, [blob_url 0])
  /\ (exists w,
        reachable w /\ status (app w) = ERROR
        /\ ~ images_only_while_active (app w))
  /\ (exists w,
        reachable w /\ status (app w) = IDLE
        /\ ~ images_only_while_active (app w)).
Proof.
  split; [reflexivity|]. split; [reflexivity|]. split.
  - eexists. split; [exists failed_submission; vm_compute; reflexivity|].
    split; [reflexivity|].
    intros H. destruct H as [H|[H|H]]; discriminate.
  - eexists.
    split; [exists (failed_submission ++ [Elapse 3000; Fire 0]);
            vm_compute; reflexivity|].
    split; [reflexivity|].
    intros H. destruct H as [H|[H|H]]; discriminate.
Qed.

(* ------------------------------------------------------------------ *)
(** ** Failures *)

(** The call of the analysis collaborator, on its own, throws what the
    collaborator rejects with. *)
Lemma analyzeCrimeSceneImages_throws (env : Env) (files : list File) (w : World)
  (e : JsError) :
  analysis env files = Rejected e ->
  completion (drive env (analyzeCrimeSceneImages files) w) = Threw e.
Proof. intros H. cbn. now rewrite H. Qed.

(** C5.  Whatever the files and however the analysis collaborator settles,
    the promise of [handleUpload] is fulfilled, never rejected: a rejection
    of the collaborator is caught, logged, and turned into the status
    ERROR.  In the event loop no step of a submission ends with an uncaught
    exception. *)
Theorem handleUpload_never_throws (env : Env) (files : list File) (w : World) :
  let r := drive env (handleUpload files) w in
  completion r = Returned tt
  /\ match analysis env files with
     | Resolved _ => status (app (final r)) = COMPLETE
     | Rejected e =>
         status (app (final r)) = ERROR /\ In (EConsoleError e) (effects r)
     end
  /\ exists k,
       snd (run_sync (handleUpload files) w) = AtTimeout 1000 k
       /\ forall w1,
            exists k2,
              snd (run_sync k w1) = AtAnalyze files k2
              /\ forall o w2, snd (run_sync (k2 o) w2) = Finished tt.
Proof.
  intros r. subst r.
  rewrite drive_handleUpload.
  split; [destruct (analysis env files); reflexivity|].
  split.
  - destruct (analysis env files) as [data|e]; cbn [final effects].
    + reflexivity.
    + split; [reflexivity|].
      apply in_or_app. right. left. reflexivity.
  - destruct (run_sync_handleUpload files w) as (k & Hk & _ & Hrest).
    exists k. rewrite Hk. split; [reflexivity|].
    intros w1. destruct (Hrest w1) as (k2 & Hk2 & Hfin).
    exists k2. rewrite Hk2. split; [reflexivity|].
    intros o w2. rewrite Hfin. now destruct o.
Qed.

(** C6, as stated, fails.  In [overlap_then_failure] the second submission
    fails after the first one has stored its result: the status becomes
    ERROR and then IDLE with that result still stored. *)
Lemma result_retained_on_failure :
  observe (exec upload_when_idle overlap_then_failure initialWorld)
  = Some (ERROR, Some [blob_url 0], [blob_url 1])
  /\ observe (exec upload_when_idle overlap_then_idle initialWorld)
     = Some (IDLE, Some [blob_url 0], [blob_url 1])
  /\ exists w,
       exec upload_when_idle overlap_then_failure initialWorld = Some w
       /\ status (app w) = ERROR
       /\ analysisData (app w) <> None.
Proof.
  split; [reflexivity|]. split; [reflexivity|].
  eexists. split; [vm_compute; reflexivity|].
  split; [reflexivity|]. discriminate.
Qed.

(** C6, amended.  When the analysis collaborator fails, the submission logs
    the failure and writes the status ERROR in the step in which the
    failure is delivered, and sets a timer, due 3000 ms later, whose
    callback writes the status IDLE.  Neither the failure path nor the
    callback stores a result; both leave the stored result as it is.  So no
    result is stored at any point of the failure path if none was stored
    when the submission started and nothing else stored one meanwhile. *)
Theorem failure_path (env : Env) (files : list File) (w : World) (e : JsError) :
  analysis env files = Rejected e ->
  let r := drive env (handleUpload files) w in
  let wf := settling_world env files w in
  effects r
    = upload_prefix files w ++ [EConsoleError e; ESetStatus ERROR; ESetTimeout 3000]
  /\ status (app (final r)) = ERROR
  /\ pending (final r) = pending wf ++ [PTimer (now wf + 3000) (setStatus IDLE)]
  /\ data_writes (effects r) = []
  /\ analysisData (app (final r)) = analysisData (app wf)
  /\ (forall w',
        let r' := drive env (setStatus IDLE) w' in
        status (app (final r')) = IDLE
        /\ analysisData (app (final r')) = analysisData (app w')
        /\ data_writes (effects r') = [])
  /\ ((forall s w', analysisData (app (meanwhile env s w')) = analysisData (app w')) ->
      analysisData (app w) = None ->
      analysisData (app (uploading_world files w)) = None
      /\ analysisData (app wf) = None
      /\ analysisData (app (final r)) = None).
Proof.
  intros Hrej r wf. subst r wf.
  rewrite drive_handleUpload, Hrej. cbn [final effects].
  destruct (uploading_world_frame files w) as (Ha & _).
  split; [reflexivity|]. split; [reflexivity|]. split; [reflexivity|].
  split; [now rewrite data_writes_upload_prefix|].
  split; [reflexivity|].
  split; [intros w'; repeat split|].
  intros Hframe Hnone.
  assert (H1 : analysisData (app (uploading_world files w)) = None)
    by (now rewrite Ha).
  assert (H2 : analysisData (app (settling_world env files w)) = None).
  { unfold settling_world. rewrite Hframe. cbn. now rewrite Hframe. }
  repeat split; assumption.
Qed.

Lemma failure_path_witness :
  analysis rejecting [photo1] = Rejected boom
  /\ (forall s w',
        analysisData (app (meanwhile rejecting s w')) = analysisData (app w'))
  /\ analysisData (app loggedIn) = None
  /\ status (app (final (drive rejecting (handleUpload [photo1]) loggedIn))) = ERROR
  /\ pending (final (drive rejecting (handleUpload [photo1]) loggedIn))
     = [PTimer 4000 (setStatus IDLE)]
  /\ analysisData (app (final (drive rejecting (handleUpload [photo1]) loggedIn)))
     = None.
Proof.
  assert (Hframe : forall s w',
             analysisData (app (meanwhile rejecting s w')) = analysisData (app w'))
    by (intros [] w'; reflexivity).
  pose proof (failure_path rejecting [photo1] loggedIn boom eq_refl)
    as (_ & Hst & Hpend & _ & _ & _ & Hnone).
  split; [reflexivity|]. split; [exact Hframe|]. split; [reflexivity|].
  split; [exact Hst|]. split; [exact Hpend|].
  exact (proj2 (proj2 (Hnone Hframe eq_refl))).
Defined.

(* ------------------------------------------------------------------ *)
(** ** Requesting the dispatch of the report *)

(** [handleDownloadReport], run to completion. *)
Lemma drive_handleDownloadReport (env : Env) (s : AppState) (mail : option string)
  (w : World) :
  drive env (handleDownloadReport s mail) w
  = match analysisData s, user s with
    | Some d, Some u =>
        let to := or_else mail (email u) in
        let w' := meanwhile env (InSend d u to) w in
        match dispatch env d u to with
        | Resolved true =>
            mkRun w' (Returned tt) [ECallSend d u to; EAlert (success_message to)]
        | Resolved false =>
            mkRun w' (Returned tt) [ECallSend d u to; EAlert failure_message]
        | Rejected e => mkRun w' (Threw e) [ECallSend d u to]
        end
    | _, _ => mkRun w (Returned tt) []
    end.
Proof.
  unfold handleDownloadReport.
  destruct (analysisData s) as [d|]; [|reflexivity].
  destruct (user s) as [u|]; [|reflexivity].
  cbn. destruct (dispatch env d u (or_else mail (email u))) as [[|]|e]; reflexivity.
Qed.

(** C7.  When no result is stored or no user is logged in, a dispatch
    request returns at once: it performs no effect at all, so it neither
    calls the dispatch collaborator nor shows a notification, and it leaves
    nothing pending in the event loop. *)
Theorem dispatch_without_result_or_user
  (env : Env) (s : AppState) (mail : option string) (w : World) :
  analysisData s = None \/ user s = None ->
  let r := drive env (handleDownloadReport s mail) w in
  completion r = Returned tt
  /\ effects r = []
  /\ filter is_call (effects r) = []
  /\ filter is_alert (effects r) = []
  /\ final r = w
  /\ spawn (handleDownloadReport s mail) w = w.
Proof.
  intros H r. subst r.
  pose proof (spawn_handleDownloadReport s mail w) as Hsp.
  rewrite drive_handleDownloadReport.
  destruct H as [H|H]; rewrite H in *.
  - repeat split. exact Hsp.
  - destruct (analysisData s); repeat split; exact Hsp.
Qed.

Lemma dispatch_without_result_or_user_witness :
  (analysisData (app loggedIn) = None \/ user (app loggedIn) = None)
  /\ effects (drive resolving
                (handleDownloadReport (app loggedIn) None) loggedIn) = [].
Proof.
  split; [left; reflexivity|].
  exact (proj1 (proj2 (dispatch_without_result_or_user
           resolving
           (app loggedIn) None loggedIn (or_introl eq_refl)))).
Defined.

(** C8.  A dispatch request writes none of the four state cells, whatever
    the dispatch collaborator answers: run on its own it leaves the state
    as it was.  With a result and a user it calls the collaborator exactly
    once; the answer [false] is reported by exactly one failure
    notification, the answer [true] by one success notification, and the
    collaborator is not called again. *)
Theorem dispatch_request_frame
  (env : Env) (s : AppState) (mail : option string) (w : World) :
  let r := drive env (handleDownloadReport s mail) w in
  filter is_setter (effects r) = []
  /\ (forall a d, app (final (drive (alone a d) (handleDownloadReport s mail) w)) = app w)
  /\ match analysisData s, user s with
     | Some data, Some u =>
         let to := or_else mail (email u) in
         final r = meanwhile env (InSend data u to) w
         /\ filter is_call (effects r) = [ECallSend data u to]
         /\ match dispatch env data u to with
            | Resolved true =>
                completion r = Returned tt
                /\ filter is_alert (effects r) = [EAlert (success_message to)]
            | Resolved false =>
                completion r = Returned tt
                /\ filter is_alert (effects r) = [EAlert failure_message]
            | Rejected e =>
                completion r = Threw e /\ filter is_alert (effects r) = []
            end
     | _, _ => final r = w /\ effects r = []
     end.
Proof.
  intros r. subst r.
  split; [|split].
  - rewrite drive_handleDownloadReport.
    destruct (analysisData s) as [data|]; [|reflexivity].
    destruct (user s) as [u|]; [|reflexivity].
    cbn. destruct (dispatch env data u _) as [[|]|e]; reflexivity.
  - intros a d. rewrite drive_handleDownloadReport.
    destruct (analysisData s) as [data|]; [|reflexivity].
    destruct (user s) as [u|]; [|reflexivity].
    cbn. destruct (d data u _) as [[|]|e]; reflexivity.
  - rewrite drive_handleDownloadReport.
    destruct (analysisData s) as [data|]; [|split; reflexivity].
    destruct (user s) as [u|]; [|split; reflexivity].
    cbn. destruct (dispatch env data u _) as [[|]|e]; repeat split.
Qed.

(* ------------------------------------------------------------------ *)
(** ** Logging out, and submitting no file *)

(** C9.  From every state, whatever is pending, logging out leaves no user,
    the status IDLE, no result and no image reference. *)
Theorem logout_clears_everything (env : Env) (w : World) :
  let r := drive env handleLogout w in
  completion r = Returned tt
  /\ user (app (final r)) = None
  /\ status (app (final r)) = IDLE
  /\ analysisData (app (final r)) = None
  /\ uploadedImages (app (final r)) = []
  /\ app (spawn handleLogout w) = initialState.
Proof. repeat split. Qed.

(** C10.  [handleUpload] does not look at the length of its input: given no
    file it writes UPLOADING, creates no reference and appends none to the
    accumulated list, waits, writes ANALYZING and calls the analysis
    collaborator with the empty list, and then goes on as for any list. *)
Theorem submission_of_no_file (env : Env) (w : World) :
  let r := drive env (handleUpload []) w in
  upload_prefix [] w
  = [ESetStatus UPLOADING;
     ESetUploadedImages (uploadedImages (app w));
     EAwaitTimeout 1000;
     ESetStatus ANALYZING;
     ECallAnalyze []]
  /\ created_urls (effects r) = []
  /\ uploadedImages (app (uploading_world [] w)) = uploadedImages (app w)
  /\ blobs (uploading_world [] w) = blobs w
  /\ match analysis env [] with
     | Resolved data =>
         effects r
         = upload_prefix [] w
           ++ [ESetAnalysisData (Some (with_imageUrls data [])); ESetStatus COMPLETE]
         /\ status (app (final r)) = COMPLETE
         /\ stored_imageUrls (app (final r)) = Some []
     | Rejected e =>
         effects r
         = upload_prefix [] w
           ++ [EConsoleError e; ESetStatus ERROR; ESetTimeout 3000]
         /\ status (app (final r)) = ERROR
     end.
Proof.
  intros r. subst r.
  rewrite drive_handleUpload.
  assert (Hp : upload_prefix [] w
               = [ESetStatus UPLOADING;
                  ESetUploadedImages (uploadedImages (app w));
                  EAwaitTimeout 1000;
                  ESetStatus ANALYZING;
                  ECallAnalyze []]).
  { unfold upload_prefix. cbn. now rewrite app_nil_r. }
  split; [exact Hp|].
  split.
  - destruct (analysis env []); cbn [effects];
      rewrite created_urls_upload_prefix; reflexivity.
  - split; [cbn; now rewrite app_nil_r|].
    split; [reflexivity|].
    destruct (analysis env []); repeat split.
Qed.

(* ------------------------------------------------------------------ *)
(** ** The two interpretations agree *)

Lemma world_eq (w1 w2 : World) :
  app w1 = app w2 -> blobs w1 = blobs w2 -> now w1 = now w2 ->
  pending w1 = pending w2 -> w1 = w2.
Proof.
  destruct w1, w2; simpl; intros; subst; reflexivity.
Qed.

(** A submission the event loop runs with nothing else pending and no
    other event in between ends in the world [drive] computes for the
    handler run alone. *)
Lemma exec_submission_alone (files : list File) (o : Outcome CrimeSceneAnalysis)
  (d : CrimeSceneAnalysis -> UserProfile -> string -> Outcome bool)
  (w : World) (st : AnalysisStatus) :
  pending w = [] ->
  render (app w) = UploaderView st ->
  exec one_at_a_time [OnUpload files; Elapse 1000; Fire 0; Analyzed 0 o] w
  = Some (final (drive (alone (fun _ => o) d) (handleUpload files) w)).
Proof.
  intros Hp Hview.
  destruct (run_sync_handleUpload files w) as (k & Hk & _ & Hrest).
  destruct (uploading_world_frame files w) as (Ha & Hn & Hpu).
  set (w1 := add_pending (PTimer (now w + 1000) k) (uploading_world files w)).
  assert (Hp1 : pending w1 = [PTimer (now w + 1000) k]).
  { unfold w1, add_pending. cbn [pending]. now rewrite Hpu, Hp. }
  assert (Hn1 : now w1 = now w) by exact Hn.
  assert (E1 : exec_event (OnUpload files) w = Some w1).
  { cbn [exec_event]. rewrite Hview. unfold spawn. now rewrite Hk, Hn. }
  assert (E2 : exec_event (Elapse 1000) w1 = Some (elapse 1000 w1)).
  { cbn [exec_event]. rewrite Hp1, Hn1. cbn [forallb not_overdue].
    now rewrite N.leb_refl. }
  set (w2 := set_pending [] (elapse 1000 w1)).
  destruct (Hrest w2) as (k2 & Hk2 & Hfin).
  assert (E3 : exec_event (Fire 0) (elapse 1000 w1)
               = Some (add_pending (PAnalysis files k2) (set_status ANALYZING w2))).
  { cbn [exec_event elapse pending now]. rewrite Hp1, Hn1.
    cbn [nth_error]. rewrite N.leb_refl.
    change (remove_nth 0 [PTimer (now w + 1000) k]) with (@nil Pending).
    fold w2. unfold spawn. now rewrite Hk2. }
  assert (E4 : exec_event (Analyzed 0 o)
                 (add_pending (PAnalysis files k2) (set_status ANALYZING w2))
               = Some (fst (run_sync (k2 o) (set_status ANALYZING w2)))).
  { unfold exec_event.
    change (pending (add_pending (PAnalysis files k2) (set_status ANALYZING w2)))
      with [PAnalysis files k2].
    cbn [nth_error].
    change (remove_nth 0 [PAnalysis files k2]) with (@nil Pending).
    unfold spawn. rewrite !Hfin.
    destruct o; cbn [fst]; f_equal; apply world_eq; reflexivity. }
  cbn [exec one_at_a_time]. unfold busy at 1. rewrite Hp. cbn [existsb negb].
  rewrite E1, E2, E3, E4, Hfin, drive_handleUpload. f_equal.
  cbn [analysis alone].
  destruct o as [data|e]; cbn [fst final];
    apply world_eq; unfold settling_world, w2, w1;
    cbn [app blobs now pending meanwhile alone set_status set_analysisData
         add_pending set_pending elapse with_app];
    rewrite ?Hpu, ?Hp; reflexivity.
Qed.

(* ------------------------------------------------------------------ *)
(** ** Every run of the event loop *)

Lemma loop_inv_initial : loop_inv initialWorld.
Proof.
  split; [constructor|]. split; [discriminate|].
  intros d H. discriminate H.
Qed.

(** Each enabled event does what its handler says, provided the pending
    continuations are those the handlers leave. *)
Lemma exec_event_shape (ev : Event) (w w' : World) :
  Forall pending_ok (pending w) ->
  exec_event ev w = Some w' ->
  event_shape ev w w'.
Proof.
  intros Hok Hex.
  destruct ev as [u| |files| |mail|dt|i|i o|i o]; simpl in Hex; unfold event_shape.
  - (* OnLogin *)
    unfold render in Hex.
    destruct (user (app w)) as [u0|] eqn:Hu.
    + destruct (status (app w)); try discriminate;
        destruct (analysisData (app w)); discriminate.
    + injection Hex as <-. split; reflexivity.
  - (* OnLogout *)
    unfold render in Hex.
    destruct (user (app w)) as [u0|] eqn:Hu; [|discriminate].
    split; [discriminate|].
    destruct (status (app w)); try (injection Hex as <-; reflexivity);
      destruct (analysisData (app w)); injection Hex as <-; reflexivity.
  - (* OnUpload *)
    unfold render in Hex.
    destruct (user (app w)) as [u0|] eqn:Hu; [|discriminate].
    split; [discriminate|].
    assert (Hs : status (app w) <> COMPLETE).
    { intros Hs. rewrite Hs in Hex. destruct (analysisData (app w)); discriminate. }
    split; [exact Hs|].
    destruct (spawn_handleUpload files w) as (k & Hk & Hd).
    exists k. split; [|exact Hd].
    destruct (status (app w)); try congruence;
      simpl in Hex; injection Hex as <-; exact Hk.
  - (* OnReset *)
    unfold render in Hex.
    destruct (user (app w)) as [u0|] eqn:Hu; [|discriminate].
    destruct (status (app w)) eqn:Hs; try discriminate.
    destruct (analysisData (app w)) as [d|] eqn:Hd; [|discriminate].
    injection Hex as <-.
    split; [discriminate|]. split; [reflexivity|]. split; [discriminate|].
    rewrite spawn_onReset, Hu. reflexivity.
  - (* OnDownloadReport *)
    unfold render in Hex.
    destruct (user (app w)) as [u0|] eqn:Hu; [|discriminate].
    destruct (status (app w)) eqn:Hs; try discriminate.
    destruct (analysisData (app w)) as [d|] eqn:Hd; [|discriminate].
    injection Hex as <-.
    pose proof (spawn_handleDownloadReport (app w) mail w) as Hsp.
    rewrite Hd, Hu in Hsp. destruct Hsp as (k & Hk & Hsend).
    exists d, u0, k. repeat split; assumption.
  - (* Elapse *)
    destruct (forallb _ _); [|discriminate].
    now injection Hex as <-.
  - (* Fire *)
    destruct (nth_error (pending w) i) as [[due k| |]|] eqn:Hn; try discriminate.
    destruct (due <=? now w)%N eqn:Hdue; [|discriminate].
    injection Hex as <-.
    exists due, k. split; [reflexivity|].
    split; [now apply N.leb_le|].
    assert (Hx : pending_ok (PTimer due k)).
    { rewrite Forall_forall in Hok. apply Hok. eapply nth_error_In; eauto. }
    fold (without i w).
    inversion Hx as [due' k' Hk|due' k' Hk| |]; subst due' k'.
    + left. destruct (Hk (without i w)) as (files & k2 & Hrun & Hk2).
      exists files, k2. split; [|exact Hk2].
      unfold spawn. now rewrite Hrun.
    + right. unfold spawn. now rewrite (Hk (without i w)).
  - (* Analyzed *)
    destruct (nth_error (pending w) i) as [[|files k|]|] eqn:Hn; try discriminate.
    injection Hex as <-.
    exists files, k. split; [reflexivity|].
    assert (Hx : pending_ok (PAnalysis files k)).
    { rewrite Forall_forall in Hok. apply Hok. eapply nth_error_In; eauto. }
    fold (without i w).
    inversion Hx as [| |files' k' Hk|]; subst files' k'.
    pose proof (Hk o (without i w)) as Hrun.
    destruct o as [d|e].
    + destruct Hrun as (urls & Hrun). exists urls.
      unfold spawn. now rewrite Hrun.
    + destruct Hrun as (cb & Hrun & Hcb). exists cb. split; [|exact Hcb].
      unfold spawn. now rewrite Hrun.
  - (* Sent *)
    destruct (nth_error (pending w) i) as [[| |d u to k]|] eqn:Hn; try discriminate.
    injection Hex as <-.
    exists d, u, to, k. split; [reflexivity|].
    assert (Hx : pending_ok (PSend d u to k)).
    { rewrite Forall_forall in Hok. apply Hok. eapply nth_error_In; eauto. }
    fold (without i w).
    inversion Hx as [| | |d' u' to' k' Hk]; subst d' u' to' k'.
    unfold spawn.
    destruct (Hk o (without i w)) as [Hrun|(e & Hrun)]; now rewrite Hrun.
Qed.

Lemma Forall_remove_nth {A} (P : A -> Prop) (l : list A) :
  forall i, Forall P l -> Forall P (remove_nth i l).
Proof.
  unfold remove_nth.
  induction l as [|a l IH]; intros [|i] H; simpl; auto.
  - now inversion H.
  - inversion H; subst. constructor; [assumption|]. now apply IH.
Qed.

Lemma loop_inv_step (ev : Event) (w w' : World) :
  loop_inv w -> exec_event ev w = Some w' -> loop_inv w'.
Proof.
  intros (Hok & Hc & Hu) Hex.
  pose proof (exec_event_shape ev w w' Hok Hex) as Hsh.
  assert (Hrm : forall i, Forall pending_ok (remove_nth i (pending w)))
    by (intros i; now apply Forall_remove_nth).
  destruct ev as [u| |files| |mail|dt|i|i o|i o]; unfold event_shape in Hsh.
  - destruct Hsh as (_ & ->). repeat split; assumption.
  - destruct Hsh as (_ & ->).
    split; [exact Hok|]. split; [discriminate|]. intros d H. discriminate H.
  - destruct Hsh as (_ & Hs & k & -> & Hk).
    destruct (uploading_world_frame files w) as (Ha & _ & Hp).
    unfold loop_inv, add_pending. cbn [app pending]. rewrite Ha, Hp.
    split; [|split].
    + apply Forall_app. split; [exact Hok|]. constructor; [|constructor].
      now apply ok_delay.
    + discriminate.
    + exact Hu.
  - destruct Hsh as (_ & _ & _ & ->).
    split; [exact Hok|]. split; [discriminate|]. intros d H. discriminate H.
  - destruct Hsh as (d & u & k & _ & _ & _ & -> & Hk).
    split; [|split; assumption].
    apply Forall_app. split; [exact Hok|]. constructor; [|constructor].
    now apply ok_send.
  - subst w'. repeat split; assumption.
  - destruct Hsh as (due & k & Hn & _ & [(files & k2 & -> & Hk2)| ->]).
    + split; [|split].
      * apply Forall_app. split; [apply Hrm|]. constructor; [|constructor].
        now apply ok_analysis.
      * discriminate.
      * exact Hu.
    + split; [apply Hrm|]. split; [discriminate|exact Hu].
  - destruct Hsh as (files & k & Hn & Hsh).
    destruct o as [d|e].
    + destruct Hsh as (urls & ->).
      split; [apply Hrm|]. split; [discriminate|].
      intros d' H. injection H as <-. discriminate.
    + destruct Hsh as (cb & -> & Hcb).
      split; [|split].
      * apply Forall_app. split; [apply Hrm|]. constructor; [|constructor].
        now apply ok_reset with (due := (now w + 3000)%N).
      * discriminate.
      * exact Hu.
  - destruct Hsh as (d & u & to & k & Hn & ->).
    split; [apply Hrm|]. split; assumption.
Qed.

Lemma loop_inv_exec (allowed : World -> Event -> bool) (evs : list Event) :
  forall w w', loop_inv w -> exec allowed evs w = Some w' -> loop_inv w'.
Proof.
  induction evs as [|ev evs IH]; intros w w' Hinv Hex; simpl in Hex.
  - now injection Hex as <-.
  - destruct (allowed w ev); try discriminate.
    destruct (exec_event ev w) as [w1|] eqn:Hev; try discriminate.
    eapply IH; [|exact Hex].
    eapply loop_inv_step; eauto.
Qed.

Lemma reachable_loop_inv (w : World) : reachable w -> loop_inv w.
Proof.
  intros (evs & H). exact (loop_inv_exec any_event evs _ _ loop_inv_initial H).
Qed.

Lemma reachable_world_after (evs : list Event) (w : World) :
  exec any_event evs initialWorld = Some w -> reachable (world_after evs).
Proof.
  intros H. exists evs. unfold world_after. now rewrite H.
Qed.

(** X1.  In every reachable state, overlapping submissions included, the
    status COMPLETE comes with a stored result: whenever a user is logged
    in, [App] renders [ImageUploader] or [Dashboard], never an empty main
    area. *)
Theorem main_area_never_blank (w : World) :
  reachable w ->
  (status (app w) = COMPLETE -> analysisData (app w) <> None)
  /\ render (app w) <> EmptyView.
Proof.
  intros Hr. destruct (reachable_loop_inv w Hr) as (_ & Hc & _).
  split; [exact Hc|].
  unfold render.
  destruct (user (app w)); [|discriminate].
  destruct (status (app w)); try discriminate.
  destruct (analysisData (app w)); [discriminate|].
  exfalso. now apply Hc.
Qed.

Lemma main_area_never_blank_witness :
  reachable completedWorld
  /\ status (app completedWorld) = COMPLETE
  /\ render (app completedWorld) <> EmptyView.
Proof.
  assert (Hr : reachable completedWorld)
    by (apply (reachable_world_after good_submission completedWorld); reflexivity).
  split; [exact Hr|]. split; [reflexivity|].
  exact (proj2 (main_area_never_blank completedWorld Hr)).
Defined.

(** X2.  In every reachable state a stored result carries an image
    reference list: [imageUrls], optional in [CrimeSceneAnalysis], is
    always set on the result [App] stores. *)
Theorem stored_result_has_imageUrls (w : World) (d : CrimeSceneAnalysis) :
  reachable w ->
  analysisData (app w) = Some d ->
  exists urls, imageUrls d = Some urls.
Proof.
  intros Hr Hd. destruct (reachable_loop_inv w Hr) as (_ & _ & Hu).
  specialize (Hu d Hd).
  destruct (imageUrls d) as [urls|]; [now exists urls | contradiction].
Qed.

Lemma stored_result_has_imageUrls_witness :
  reachable completedWorld
  /\ analysisData (app completedWorld) = Some (with_imageUrls report0 [blob_url 0])
  /\ exists urls, imageUrls (with_imageUrls report0 [blob_url 0]) = Some urls.
Proof.
  assert (Hr : reachable completedWorld)
    by (apply (reachable_world_after good_submission completedWorld); reflexivity).
  split; [exact Hr|]. split; [reflexivity|].
  exact (stored_result_has_imageUrls completedWorld _ Hr eq_refl).
Defined.

(** X3.  Whenever the dispatch request can be made, that is whenever
    [Dashboard] is rendered, a result is stored and a user is logged in:
    the request does not return early but calls the dispatch collaborator,
    once, with the stored result, the user, and the given address or the
    user's own; it changes no state cell, and what is left of it changes
    none either. *)
Theorem dispatch_from_dashboard (mail : option string) (w w' : World) :
  exec_event (OnDownloadReport mail) w = Some w' ->
  exists d u k,
    render (app w) = DashboardView d (uploadedImages (app w))
    /\ analysisData (app w) = Some d
    /\ user (app w) = Some u
    /\ app w' = app w
    /\ pending w' = pending w ++ [PSend d u (or_else mail (email u)) k]
    /\ forall o w2, fst (run_sync (k o) w2) = w2.
Proof.
  intros Hex. simpl in Hex. unfold render in *.
  destruct (user (app w)) as [u|] eqn:Hu; [|discriminate].
  destruct (status (app w)) eqn:Hs; try discriminate.
  destruct (analysisData (app w)) as [d|] eqn:Hd; [|discriminate].
  injection Hex as <-.
  pose proof (spawn_handleDownloadReport (app w) mail w) as Hsp.
  rewrite Hd, Hu in Hsp. destruct Hsp as (k & -> & Hk).
  exists d, u, k. repeat split.
  intros o w2. destruct (Hk o w2) as [H|(e & H)]; now rewrite H.
Qed.

Lemma dispatch_from_dashboard_witness :
  exec_event (OnDownloadReport None) completedWorld
  = Some (spawn (handleDownloadReport (app completedWorld) None) completedWorld)
  /\ exists d u k,
       render (app completedWorld)
       = DashboardView d (uploadedImages (app completedWorld))
       /\ analysisData (app completedWorld) = Some d
       /\ user (app completedWorld) = Some u
       /\ app (spawn (handleDownloadReport (app completedWorld) None) completedWorld)
          = app completedWorld
       /\ pending (spawn (handleDownloadReport (app completedWorld) None)
                     completedWorld)
          = pending completedWorld ++ [PSend d u (or_else None (email u)) k]
       /\ forall o w2, fst (run_sync (k o) w2) = w2.
Proof.
  split; [reflexivity|].
  exact (dispatch_from_dashboard None completedWorld _ eq_refl).
Defined.

(** X4.  The destination of the report: without an address, or with the
    empty address, the dispatch collaborator is called with the user's own
    address; with a non-empty address it is called with that address. *)
Theorem dispatch_destination
  (env : Env) (s : AppState) (w : World) (d : CrimeSceneAnalysis) (u : UserProfile) :
  analysisData s = Some d ->
  user s = Some u ->
  filter is_call (effects (drive env (handleDownloadReport s None) w))
  = [ECallSend d u (email u)]
  /\ filter is_call (effects (drive env (handleDownloadReport s (Some EmptyString)) w))
     = [ECallSend d u (email u)]
  /\ forall c m,
       filter is_call
         (effects (drive env (handleDownloadReport s (Some (String c m))) w))
       = [ECallSend d u (String c m)].
Proof.
  intros Hd Hu.
  assert (H : forall mail,
             filter is_call (effects (drive env (handleDownloadReport s mail) w))
             = [ECallSend d u (or_else mail (email u))]).
  { intros mail. rewrite drive_handleDownloadReport, Hd, Hu. cbn.
    destruct (dispatch env d u _) as [[|]|e]; reflexivity. }
  split; [apply H|]. split; [apply H|]. intros c m. apply H.
Qed.

Lemma dispatch_destination_witness :
  analysisData (app completedWorld) = Some (with_imageUrls report0 [blob_url 0])
  /\ user (app completedWorld) = Some officer
  /\ filter is_call
       (effects (drive resolving
                   (handleDownloadReport (app completedWorld) (Some EmptyString))
                   completedWorld))
     = [ECallSend (with_imageUrls report0 [blob_url 0]) officer (email officer)].
Proof.
  split; [reflexivity|]. split; [reflexivity|].
  exact (proj1 (proj2 (dispatch_destination resolving (app completedWorld)
                         completedWorld _ officer eq_refl eq_refl))).
Defined.

(** X5.  What an event does to the accumulated list, in any reachable
    state: logout and reset empty it, a submission appends the references
    it creates, and every other event (login, dispatch, the passing of
    time, and every continuation of a submission: its delay, its success,
    its failure and its error timer) leaves it as it is.  So nothing but
    logout and reset ever removes a reference. *)
Theorem accumulated_list_after_event (ev : Event) (w w' : World) :
  reachable w ->
  exec_event ev w = Some w' ->
  uploadedImages (app w') = images_after ev w.
Proof.
  intros Hr Hex.
  destruct (reachable_loop_inv w Hr) as (Hok & _).
  pose proof (exec_event_shape ev w w' Hok Hex) as Hsh.
  destruct ev as [u| |files| |mail|dt|i|i o|i o];
    unfold event_shape in Hsh; unfold images_after.
  - now destruct Hsh as (_ & ->).
  - now destruct Hsh as (_ & ->).
  - destruct Hsh as (_ & _ & k & -> & _).
    destruct (uploading_world_frame files w) as (Ha & _).
    unfold add_pending. cbn [app]. now rewrite Ha.
  - now destruct Hsh as (_ & _ & _ & ->).
  - now destruct Hsh as (d & u & k & _ & _ & _ & -> & _).
  - now subst w'.
  - now destruct Hsh as (due & k & _ & _ & [(files & k2 & -> & _)| ->]).
  - destruct Hsh as (files & k & _ & Hsh).
    destruct o as [d|e].
    + now destruct Hsh as (urls & ->).
    + now destruct Hsh as (cb & -> & _).
  - now destruct Hsh as (d & u & to & k & _ & ->).
Qed.

Lemma accumulated_list_after_event_witness :
  reachable analyzingWorld
  /\ exec_event (Analyzed 0 (Rejected boom)) analyzingWorld
     = Some (world_after [OnLogin officer; OnUpload [photo1]; Elapse 1000; Fire 0;
                          Analyzed 0 (Rejected boom)])
  /\ status (app (world_after [OnLogin officer; OnUpload [photo1]; Elapse 1000;
                               Fire 0; Analyzed 0 (Rejected boom)])) = ERROR
  /\ uploadedImages
       (app (world_after [OnLogin officer; OnUpload [photo1]; Elapse 1000; Fire 0;
                          Analyzed 0 (Rejected boom)]))
     = [blob_url 0].
Proof.
  assert (Hr : reachable analyzingWorld)
    by (apply (reachable_world_after
                 [OnLogin officer; OnUpload [photo1]; Elapse 1000; Fire 0]
                 analyzingWorld); reflexivity).
  split; [exact Hr|]. split; [reflexivity|]. split; [reflexivity|].
  exact (accumulated_list_after_event (Analyzed 0 (Rejected boom)) analyzingWorld _
           Hr eq_refl).
Defined.

(** X6.  The user is written by login and logout only: in any reachable
    state, login (possible only when nobody is logged in) stores the given
    profile, logout stores none, and every other event, the continuations
    of a submission started before a logout included, leaves the user as it
    is. *)
Theorem user_after_event (ev : Event) (w w' : World) :
  reachable w ->
  exec_event ev w = Some w' ->
  user (app w') = user_after ev w
  /\ match ev with
     | OnLogin _ => user (app w) = None
     | Elapse _ | Fire _ | Analyzed _ _ | Sent _ _ => True
     | _ => user (app w) <> None
     end.
Proof.
  intros Hr Hex.
  destruct (reachable_loop_inv w Hr) as (Hok & _).
  pose proof (exec_event_shape ev w w' Hok Hex) as Hsh.
  destruct ev as [u| |files| |mail|dt|i|i o|i o];
    unfold event_shape in Hsh; unfold user_after.
  - destruct Hsh as (Hu & ->). now split.
  - destruct Hsh as (Hu & ->). now split.
  - destruct Hsh as (Hu & _ & k & -> & _).
    destruct (uploading_world_frame files w) as (Ha & _).
    unfold add_pending. cbn [app]. rewrite Ha. now split.
  - destruct Hsh as (Hu & _ & _ & ->). now split.
  - destruct Hsh as (d & u & k & _ & Hu & _ & -> & _).
    split; [reflexivity|]. rewrite Hu. discriminate.
  - now subst w'.
  - now destruct Hsh as (due & k & _ & _ & [(files & k2 & -> & _)| ->]).
  - destruct Hsh as (files & k & _ & Hsh).
    destruct o as [d|e].
    + now destruct Hsh as (urls & ->).
    + now destruct Hsh as (cb & -> & _).
  - now destruct Hsh as (d & u & to & k & _ & ->).
Qed.

Lemma user_after_event_witness :
  reachable analyzingWorld
  /\ exec_event (Analyzed 0 (Resolved report0)) analyzingWorld
     = Some (world_after [OnLogin officer; OnUpload [photo1]; Elapse 1000; Fire 0;
                          Analyzed 0 (Resolved report0)])
  /\ user (app (world_after [OnLogin officer; OnUpload [photo1]; Elapse 1000; Fire 0;
                             Analyzed 0 (Resolved report0)]))
     = Some officer.
Proof.
  assert (Hr : reachable analyzingWorld)
    by (apply (reachable_world_after
                 [OnLogin officer; OnUpload [photo1]; Elapse 1000; Fire 0]
                 analyzingWorld); reflexivity).
  split; [exact Hr|]. split; [reflexivity|].
  exact (proj1 (user_after_event (Analyzed 0 (Resolved report0)) analyzingWorld _
                  Hr eq_refl)).
Defined.

(** X7.  Reset is offered only by [Dashboard], so with a user, the status
    COMPLETE and a result; it leaves the status IDLE, no result and no
    image reference, keeps the user, cancels nothing that is pending, and
    [ImageUploader] is rendered again. *)
Theorem reset_from_dashboard (w w' : World) :
  exec_event OnReset w = Some w' ->
  (user (app w) <> None /\ status (app w) = COMPLETE /\ analysisData (app w) <> None)
  /\ status (app w') = IDLE
  /\ analysisData (app w') = None
  /\ uploadedImages (app w') = []
  /\ user (app w') = user (app w)
  /\ pending w' = pending w
  /\ render (app w') = UploaderView IDLE.
Proof.
  intros Hex. simpl in Hex. unfold render in Hex.
  destruct (user (app w)) as [u|] eqn:Hu; [|discriminate].
  destruct (status (app w)) eqn:Hs; try discriminate.
  destruct (analysisData (app w)) as [d|] eqn:Hd; [|discriminate].
  injection Hex as <-. rewrite spawn_onReset.
  unfold render. cbn. rewrite Hu.
  repeat split; discriminate.
Qed.

Lemma reset_from_dashboard_witness :
  exec_event OnReset completedWorld = Some (spawn onReset completedWorld)
  /\ render (app (spawn onReset completedWorld)) = UploaderView IDLE.
Proof.
  split; [reflexivity|].
  exact (proj2 (proj2 (proj2 (proj2 (proj2 (proj2
           (reset_from_dashboard completedWorld _ eq_refl))))))).
Defined.

Lemma exec_event_OnLogout (w : World) :
  user (app w) <> None ->
  exec_event OnLogout w
  = Some (mkWorld initialState (blobs w) (now w) (pending w)).
Proof.
  intros Hu. simpl. unfold render.
  destruct (user (app w)); [|contradiction].
  destruct (status (app w)); try reflexivity.
  destruct (analysisData (app w)); reflexivity.
Qed.

(** X8.  Logging out cancels nothing.  If an analysis is pending when the
    user logs out and it resolves afterwards, its result is stored and the
    status becomes COMPLETE although nobody is logged in; whoever logs in
    next gets [Dashboard] with that result, and with an empty accumulated
    list. *)
Theorem late_result_shown_after_logout
  (w : World) (i : nat) (files : list File)
  (k : Outcome CrimeSceneAnalysis -> Prog unit)
  (d : CrimeSceneAnalysis) (u2 : UserProfile) :
  reachable w ->
  user (app w) <> None ->
  nth_error (pending w) i = Some (PAnalysis files k) ->
  exists w' urls,
    exec any_event (late_result i d u2) w = Some w'
    /\ user (app w') = Some u2
    /\ status (app w') = COMPLETE
    /\ analysisData (app w') = Some (with_imageUrls d urls)
    /\ uploadedImages (app w') = []
    /\ render (app w') = DashboardView (with_imageUrls d urls) [].
Proof.
  intros Hr Hu Hn.
  destruct (reachable_loop_inv w Hr) as (Hok & _).
  assert (Hk : analysis_task k).
  { rewrite Forall_forall in Hok.
    pose proof (Hok _ (nth_error_In _ _ Hn)) as Hx.
    now inversion Hx. }
  set (w1 := mkWorld initialState (blobs w) (now w) (pending w)).
  destruct (Hk (Resolved d) (without i w1)) as (urls & Hrun).
  exists (set_user (Some u2)
            (set_status COMPLETE
               (set_analysisData (Some (with_imageUrls d urls)) (without i w1)))),
         urls.
  assert (Hsp : spawn (k (Resolved d)) (without i w1)
                = set_status COMPLETE
                    (set_analysisData (Some (with_imageUrls d urls)) (without i w1)))
    by (unfold spawn; now rewrite Hrun).
  split; [|repeat split].
  unfold late_result. cbn [exec any_event].
  rewrite (exec_event_OnLogout w Hu). fold w1.
  cbn [exec_event]. change (pending w1) with (pending w). rewrite Hn.
  change (set_pending (remove_nth i (pending w)) w1) with (without i w1).
  rewrite !Hsp. reflexivity.
Qed.

Lemma late_result_shown_after_logout_witness :
  reachable analyzingWorld
  /\ user (app analyzingWorld) <> None
  /\ (exists k, nth_error (pending analyzingWorld) 0 = Some (PAnalysis [photo1] k))
  /\ exists w' urls,
       exec any_event (late_result 0 report0 officer) analyzingWorld = Some w'
       /\ user (app w') = Some officer
       /\ status (app w') = COMPLETE
       /\ analysisData (app w') = Some (with_imageUrls report0 urls)
       /\ uploadedImages (app w') = []
       /\ render (app w') = DashboardView (with_imageUrls report0 urls) [].
Proof.
  assert (Hr : reachable analyzingWorld)
    by (apply (reachable_world_after
                 [OnLogin officer; OnUpload [photo1]; Elapse 1000; Fire 0]
                 analyzingWorld); reflexivity).
  split; [exact Hr|]. split; [discriminate|].
  split; [eexists; reflexivity|].
  refine (late_result_shown_after_logout analyzingWorld 0 [photo1] _ report0 officer
            Hr _ eq_refl).
  discriminate.
Defined.

(** X9.  In a run with one submission at a time, while anything of a
    submission is pending (its delay, its analysis call or its error
    timer) exactly one such entry is pending, no result is stored and the
    status is not COMPLETE: a logged-in user sees [ImageUploader] for the
    whole submission, up to the firing of the error timer if it fails. *)
Theorem no_result_while_submitting (evs : list Event) (w : World) :
  exec one_at_a_time evs initialWorld = Some w ->
  busy w = true ->
  List.length (filter of_submission (pending w)) = 1
  /\ analysisData (app w) = None
  /\ status (app w) <> COMPLETE
  /\ (user (app w) <> None -> render (app w) = UploaderView (status (app w))).
Proof.
  intros Hex Hbusy.
  destruct (sequential_exec evs initialWorld w sequential_inv_initial Hex)
    as (Hr & _ & Hlen & Hnone).
  assert (Hne : filter of_submission (pending w) <> []).
  { intros Hf. apply existsb_filter_nil in Hf. unfold busy in Hbusy. congruence. }
  assert (Hd : analysisData (app w) = None) by (now apply Hnone).
  assert (Hs : status (app w) <> COMPLETE) by (now apply no_result_not_complete).
  split.
  - destruct (filter of_submission (pending w)) as [|p [|q l]];
      simpl in *; [contradiction | reflexivity | lia].
  - split; [exact Hd|]. split; [exact Hs|].
    intros Hu. unfold render.
    destruct (user (app w)); [|contradiction].
    destruct (status (app w)); try reflexivity. contradiction.
Qed.

Lemma no_result_while_submitting_witness :
  exec one_at_a_time [OnLogin officer; OnUpload [photo1]; Elapse 1000; Fire 0]
    initialWorld = Some analyzingWorld
  /\ busy analyzingWorld = true
  /\ analysisData (app analyzingWorld) = None
  /\ render (app analyzingWorld) = UploaderView ANALYZING.
Proof.
  split; [reflexivity|]. split; [reflexivity|].
  pose proof (no_result_while_submitting
                [OnLogin officer; OnUpload [photo1]; Elapse 1000; Fire 0]
                analyzingWorld eq_refl eq_refl) as (_ & Hd & _ & Hv).
  split; [exact Hd|]. apply Hv. discriminate.
Defined.

Lemma exec_app (allowed : World -> Event -> bool) (l1 l2 : list Event) :
  forall w,
    exec allowed (l1 ++ l2) w
    = match exec allowed l1 w with
      | Some w1 => exec allowed l2 w1
      | None => None
      end.
Proof.
  induction l1 as [|ev l1 IH]; intros w; simpl; [reflexivity|].
  destruct (allowed w ev); [|reflexivity].
  destruct (exec_event ev w); [apply IH | reflexivity].
Qed.

(** The world a submission run alone ends in. *)
Lemma final_alone (files : list File) (o : Outcome CrimeSceneAnalysis)
  (dsp : CrimeSceneAnalysis -> UserProfile -> string -> Outcome bool) (w : World) :
  final (drive (alone (fun _ => o) dsp) (handleUpload files) w)
  = let images := uploadedImages (app w) ++ mint_urls (blobs w) files in
    match o with
    | Resolved d =>
        mkWorld {| user := user (app w); status := COMPLETE;
                   analysisData := Some (with_imageUrls d (mint_urls (blobs w) files));
                   uploadedImages := images |}
                (List.length files + blobs w) (now w + 1000) (pending w)
    | Rejected _ =>
        mkWorld {| user := user (app w); status := ERROR;
                   analysisData := analysisData (app w);
                   uploadedImages := images |}
                (List.length files + blobs w) (now w + 1000)
                (pending w ++ [PTimer (now w + 1000 + 3000) (setStatus IDLE)])
    end.
Proof.
  rewrite drive_handleUpload. cbn [analysis alone].
  destruct (uploading_world_frame files w) as (Ha & Hn & Hp).
  destruct (mint_all_frame files (set_status UPLOADING w)) as (_ & _ & _ & Hb).
  assert (Hb' : blobs (uploading_world files w) = List.length files + blobs w)
    by exact Hb.
  destruct o as [d|e]; cbn [final]; apply world_eq; unfold settling_world;
    cbn [app blobs now pending meanwhile alone set_status set_analysisData
         add_pending elapse with_app];
    rewrite ?Ha, ?Hn, ?Hp, ?Hb'; reflexivity.
Qed.

(** X10.  What a retry shows.  With nothing pending and [ImageUploader]
    rendered, a submission whose analysis fails leaves its references in
    the accumulated list; after the error timer, a second submission whose
    analysis succeeds ends with [Dashboard] rendered, the stored result
    holding the references of the second submission only, and the
    accumulated list holding those of both, the failed one's first. *)
Theorem retry_keeps_failed_references
  (files1 files2 : list File) (e : JsError) (d : CrimeSceneAnalysis) (w : World) :
  pending w = [] ->
  user (app w) <> None ->
  status (app w) <> COMPLETE ->
  let urls1 := mint_urls (blobs w) files1 in
  let urls2 := mint_urls (List.length files1 + blobs w) files2 in
  exists w',
    exec one_at_a_time (failed_then_retried files1 files2 e d) w = Some w'
    /\ status (app w') = COMPLETE
    /\ stored_imageUrls (app w') = Some urls2
    /\ uploadedImages (app w') = (uploadedImages (app w) ++ urls1) ++ urls2
    /\ render (app w')
       = DashboardView (with_imageUrls d urls2)
           ((uploadedImages (app w) ++ urls1) ++ urls2)
    /\ pending w' = [].
Proof.
  intros Hp Hu Hs urls1 urls2.
  set (dsp := fun (_ : CrimeSceneAnalysis) (_ : UserProfile) (_ : string) =>
                Resolved true).
  assert (Hview : render (app w) = UploaderView (status (app w))).
  { unfold render. destruct (user (app w)); [|contradiction].
    destruct (status (app w)); try reflexivity. contradiction. }
  destruct (user (app w)) as [u|] eqn:Eu; [|contradiction].
  unfold failed_then_retried.
  change [OnUpload files1; Elapse 1000; Fire 0; Analyzed 0 (Rejected e);
          Elapse 3000; Fire 0]
    with ([OnUpload files1; Elapse 1000; Fire 0; Analyzed 0 (Rejected e)]
          ++ [Elapse 3000; Fire 0]).
  rewrite !exec_app.
  rewrite (exec_submission_alone files1 (Rejected e) dsp w _ Hp Hview).
  rewrite final_alone. cbn zeta. rewrite Hp, Eu. cbn [Datatypes.app].
  fold urls1.
  set (w2 := mkWorld {| user := Some u; status := IDLE;
                        analysisData := analysisData (app w);
                        uploadedImages := uploadedImages (app w) ++ urls1 |}
                     (List.length files1 + blobs w) (now w + 1000 + 3000) []).
  assert (E : exec one_at_a_time [Elapse 3000; Fire 0]
                {| app := {| user := Some u; status := ERROR;
                             analysisData := analysisData (app w);
                             uploadedImages := uploadedImages (app w) ++ urls1 |};
                   blobs := List.length files1 + blobs w;
                   now := now w + 1000;
                   pending := [PTimer (now w + 1000 + 3000) (setStatus IDLE)] |}
              = Some w2).
  { cbn [exec one_at_a_time exec_event pending now forallb not_overdue].
    rewrite N.leb_refl. cbn [andb elapse pending now nth_error].
    rewrite N.leb_refl. reflexivity. }
  rewrite E.
  rewrite (exec_submission_alone files2 (Resolved d) dsp w2 IDLE eq_refl eq_refl).
  rewrite final_alone. cbn zeta. cbn [w2 app blobs now pending user uploadedImages].
  fold urls2.
  eexists. split; [reflexivity|]. repeat split.
Qed.

Lemma retry_keeps_failed_references_witness :
  pending loggedIn = []
  /\ user (app loggedIn) <> None
  /\ status (app loggedIn) <> COMPLETE
  /\ observe (exec one_at_a_time (failed_then_retried [photo1] [photo1] boom report0)
                loggedIn)
     = Some (COMPLETE, Some [blob_url 1], [blob_url 0; blob_url 1]).
Proof.
  split; [reflexivity|]. split; [discriminate|]. split; [discriminate|].
  destruct (retry_keeps_failed_references [photo1] [photo1] boom report0 loggedIn
              eq_refl) as (w' & Hex & Hs & Hst & Himg & _);
    [discriminate | discriminate |].
  rewrite Hex. unfold observe. rewrite Hs, Hst, Himg. reflexivity.
Defined.

Lemma busy_add_submission (p : Pending) (w : World) :
  of_submission p = true -> busy (add_pending p w) = true.
Proof.
  intros Hp. unfold busy, add_pending. cbn [pending].
  rewrite existsb_app. simpl. rewrite Hp. now rewrite orb_true_r.
Qed.

Lemma busy_without_send (i : nat) (w : World) (p : Pending) :
  nth_error (pending w) i = Some p -> of_submission p = false ->
  busy (without i w) = busy w.
Proof.
  intros Hn Hp. unfold busy, without, set_pending. cbn [pending].
  destruct (remove_nth_split _ _ _ Hn) as (l1 & l2 & -> & ->).
  rewrite !existsb_app. simpl. now rewrite Hp.
Qed.

Lemma never_stuck_step (ev : Event) (w w' : World) :
  loop_inv w -> never_stuck w -> exec_event ev w = Some w' -> never_stuck w'.
Proof.
  intros (Hok & _) Hj Hex.
  pose proof (exec_event_shape ev w w' Hok Hex) as Hsh.
  unfold never_stuck in *.
  destruct ev as [u| |files| |mail|dt|i|i o|i o]; unfold event_shape in Hsh.
  - destruct Hsh as (_ & ->). exact Hj.
  - destruct Hsh as (_ & ->). discriminate.
  - destruct Hsh as (_ & _ & k & -> & _). intros _.
    now apply busy_add_submission.
  - destruct Hsh as (_ & _ & _ & ->). discriminate.
  - destruct Hsh as (d & u & k & _ & _ & Hs & -> & _).
    unfold add_pending. cbn [app]. rewrite Hs. discriminate.
  - subst w'. exact Hj.
  - destruct Hsh as (due & k & _ & _ & [(files & k2 & -> & _)| ->]).
    + intros _. now apply busy_add_submission.
    + discriminate.
  - destruct Hsh as (files & k & _ & Hsh).
    destruct o as [d|e].
    + destruct Hsh as (urls & ->). discriminate.
    + destruct Hsh as (cb & -> & _). intros _. now apply busy_add_submission.
  - destruct Hsh as (d & u & to & k & Hn & ->).
    rewrite (busy_without_send i w _ Hn eq_refl). exact Hj.
Qed.

Lemma never_stuck_exec (evs : list Event) :
  forall w0 w1,
    loop_inv w0 -> never_stuck w0 ->
    exec any_event evs w0 = Some w1 -> never_stuck w1.
Proof.
  induction evs as [|ev evs IH]; intros w0 w1 Hi Hj Hex; simpl in Hex.
  - now injection Hex as <-.
  - destruct (exec_event ev w0) as [w2|] eqn:Hev; [|discriminate].
    apply (IH w2 w1); auto.
    + eapply loop_inv_step; eauto.
    + eapply never_stuck_step; eauto.
Qed.

(** X11.  In every reachable state whose status is UPLOADING, ANALYZING or
    ERROR, overlapping submissions included, something of a submission is
    pending: a delay, an analysis call or an error timer.  And in every
    reachable state, resuming a pending entry of a submission writes the
    status: a timer that is due can fire, and the status is then ANALYZING
    (it was a delay) or IDLE (it was an error timer); an analysis call can
    settle either way, and the status is then COMPLETE if it resolved and
    ERROR if it rejected. *)
Theorem transient_status_has_continuation (w : World) :
  reachable w ->
  (transient (status (app w)) = true ->
   busy w = true
   /\ exists i p, nth_error (pending w) i = Some p /\ of_submission p = true)
  /\ forall i p,
       nth_error (pending w) i = Some p ->
       match p with
       | PTimer due _ =>
           (due <= now w)%N ->
           exists w',
             exec_event (Fire i) w = Some w'
             /\ (status (app w') = ANALYZING \/ status (app w') = IDLE)
       | PAnalysis _ _ =>
           forall o,
             exists w',
               exec_event (Analyzed i o) w = Some w'
               /\ status (app w')
                  = match o with
                    | Resolved _ => COMPLETE
                    | Rejected _ => ERROR
                    end
       | PSend _ _ _ _ => True
       end.
Proof.
  intros Hr.
  pose proof (reachable_loop_inv w Hr) as Hinv.
  destruct Hr as (evs & Hex).
  split.
  - intros Ht.
    assert (Hb : busy w = true).
    { apply (never_stuck_exec evs initialWorld w loop_inv_initial); auto.
      discriminate. }
    split; [exact Hb|].
    unfold busy in Hb. apply existsb_exists in Hb as (p & Hin & Hp).
    destruct (In_nth_error _ _ Hin) as (i & Hi).
    now exists i, p.
  - intros i p Hn.
    destruct Hinv as (Hok & _).
    assert (Hx : pending_ok p).
    { rewrite Forall_forall in Hok. apply Hok. eapply nth_error_In; eauto. }
    destruct p as [due k|files k|d u to k]; [| |exact I].
    + intros Hdue. apply N.leb_le in Hdue.
      cbn [exec_event]. rewrite Hn, Hdue. fold (without i w).
      inversion Hx as [due' k' Hk|due' k' Hk| |]; subst due' k'.
      * destruct (Hk (without i w)) as (files & k2 & Hrun & _).
        eexists. split; [reflexivity|].
        left. unfold spawn. now rewrite Hrun.
      * eexists. split; [reflexivity|].
        right. unfold spawn. now rewrite (Hk (without i w)).
    + intros o. cbn [exec_event]. rewrite Hn. fold (without i w).
      inversion Hx as [| |files' k' Hk|]; subst files' k'.
      pose proof (Hk o (without i w)) as Hrun.
      eexists. split; [reflexivity|].
      destruct o as [d|e].
      * destruct Hrun as (urls & Hrun). unfold spawn. now rewrite Hrun.
      * destruct Hrun as (cb & Hrun & _). unfold spawn. now rewrite Hrun.
Qed.

Lemma transient_status_has_continuation_witness :
  reachable (world_after failed_submission)
  /\ status (app (world_after failed_submission)) = ERROR
  /\ busy (world_after failed_submission) = true
  /\ exists w',
       exec_event (Fire 0) (elapse 3000 (world_after failed_submission)) = Some w'
       /\ status (app w') = IDLE.
Proof.
  assert (Hr : reachable (world_after failed_submission))
    by (apply (reachable_world_after failed_submission
                 (world_after failed_submission)); reflexivity).
  split; [exact Hr|]. split; [reflexivity|].
  split; [exact (proj1 (proj1 (transient_status_has_continuation _ Hr) eq_refl))|].
  eexists. split; reflexivity.
Defined.
